(** * request-noninteractive-callback: the debounce primitive and the
      NonInteractiveCallbackManager of [src/index.ts]

    The program runs on one event loop of a browser-like host.  The host is
    modelled by explicit state: a queue of pending timers ([setTimeout] /
    [clearTimeout]), a table of event-listener subscriptions, one
    [MutationObserver], a document that answers [querySelector], and a trace
    of the invocations of the user callbacks.  Closures handed to the host
    are defunctionalised: a timer holds a tag naming the closure and the
    arguments it captured. *)

From Stdlib Require Import ZArith List String Bool Lia.
Import ListNotations.

Local Open Scope Z_scope.

(** ** JavaScript errors *)

Inductive JsError : Type :=
| Error (message : string)
| TypeError (message : string).

(** The two failures the constructor raises itself. *)
Definition ConfigurationError : JsError :=
  Error "No selector or element id provided.".
Definition ResolutionError : JsError :=
  Error "Object unexpectedly null".

(** [assertExists] (index.ts 34-37): [null] and [undefined] are [None]. *)
Definition assertExists {T : Type} (x : option T) (message : option string)
  : JsError + T :=
  match x with
  | None =>
      inl (Error (match message with
                  | Some m => m
                  | None => "Object unexpectedly null"
                  end))
  | Some v => inr v
  end.

(** ** The host's timers *)

Module Timers.
Section Queue.
(** [T] is the type of the closures passed to [setTimeout]. *)
Context {T : Type}.

Record Timer : Type := mkTimer {
  t_handle : Z;
  t_due : Z;
  t_thunk : T
}.

(** Handles are the positive integers the host hands out in increasing
    order; [tq_clock] is the current time in milliseconds. *)
Record Queue : Type := mkQueue {
  tq_clock : Z;
  tq_next : Z;
  tq_pending : list Timer
}.

Definition empty : Queue := mkQueue 0 1 [].

(** The delay the host takes for [setTimeout(f, n)]: the timer
    initialisation steps of the HTML standard convert [n] to a 32-bit
    signed integer (modulo 2^32) and take 0 when that is negative.  For
    [0 <= n < 2^31] the delay is [n]; from 2^31 on it is not. *)
Definition to_long (n : Z) : Z :=
  (n + 2147483648) mod 4294967296 - 2147483648.
Definition timeout (n : Z) : Z := Z.max 0 (to_long n).

Definition setTimeout (thunk : T) (n : Z) (q : Queue) : Z * Queue :=
  (tq_next q,
   mkQueue (tq_clock q) (tq_next q + 1)
           (tq_pending q ++ [mkTimer (tq_next q) (tq_clock q + timeout n) thunk])).

(** [clearTimeout h] drops the timer with handle [h]; any other value,
    [-1] included, is ignored. *)
Definition clearTimeout (h : Z) (q : Queue) : Queue :=
  mkQueue (tq_clock q) (tq_next q)
          (filter (fun t => negb (t_handle t =? h)) (tq_pending q)).

Definition elapse (d : Z) (q : Queue) : Queue :=
  mkQueue (tq_clock q + Z.max 0 d) (tq_next q) (tq_pending q).

Definition find_timer (h : Z) (q : Queue) : option Timer :=
  find (fun t => t_handle t =? h) (tq_pending q).

(** The timer [h] expires: it leaves the queue and its closure is handed
    back to be run.  Nothing happens when [h] is not pending or not due. *)
Definition expire (h : Z) (q : Queue) : option (T * Queue) :=
  match find_timer h q with
  | Some t =>
      if t_due t <=? tq_clock q
      then Some (t_thunk t, clearTimeout h q)
      else None
  | None => None
  end.

End Queue.
Arguments Timer : clear implicits.
Arguments Queue : clear implicits.
Arguments timeout n : simpl never.
End Timers.

(** ** The debounce primitive (index.ts 39-65) *)

Module Debounce.

(** The second argument of [debounce] as [Object.prototype.toString] sees
    it: a boolean, a function, or anything else; [shown] is what the
    template of line 51 prints for the two arguments. *)
Inductive Immed (F : Type) : Type :=
| ImmedBoolean (b : bool)
| ImmedFunction (g : F)
| ImmedOther (shown : string).
Arguments ImmedBoolean {F} b.
Arguments ImmedFunction {F} g.
Arguments ImmedOther {F} shown.

(** What the wrapper closes over besides [timer]: the delay, [fn] (which
    is [undefined] when [debounce(n, flag)] is called without a function)
    and the leading flag [now]. *)
Record Closure (F : Type) : Type := mkClosure {
  c_n : Z;
  c_fn : option F;
  c_now : bool
}.
Arguments mkClosure {F} c_n c_fn c_now.
Arguments c_n {F} c.
Arguments c_fn {F} c.
Arguments c_now {F} c.

(** [debounce(n, immed, f)], lines 44-55: the switch on the kind of
    [immed] gives [[func, now]], or throws the [TypeError]. *)
Definition debounce {F : Type} (n : Z) (immed : Immed F) (f : option F)
  : JsError + Closure F :=
  match immed with
  | ImmedBoolean b => inr (mkClosure n f b)
  | ImmedFunction g => inr (mkClosure n (Some g) false)
  | ImmedOther shown =>
      inl (TypeError ("Unrecognized arguments " ++ shown ++ " to function deb.")%string)
  end.

Section Wrapper.
(** [S] is the state of the program, which contains the host's timer
    queue; [A] the arguments of a call; [T] the closures of the queue. *)
Context {S T A : Type}.
Variable getq : S -> Timers.Queue T.
Variable setq : Timers.Queue T -> S -> S.

(** Lines 57-64, one call of the returned wrapper.  [timer] is the value
    of the captured variable when the call starts; the result is the
    handle returned, which is also the new value of [timer].
    [fn args] is the effect of [fn.apply(this, args)] and [thunk args]
    the closure [() => fn.apply(this, args)]; [fn] is a function that
    does not call the wrapper it is wrapped in. *)
Definition wrapper (n : Z) (now : bool) (fn : A -> S -> S) (thunk : A -> T)
           (timer : Z) (args : A) (s : S) : Z * S :=
  let s1 := if (timer =? -1) && now then fn args s else s in
  let s2 := setq (Timers.clearTimeout timer (getq s1)) s1 in
  let '(h, q) := Timers.setTimeout (thunk args) n (getq s2) in
  (h, setq q s2).
End Wrapper.

(** *** A debounced function on its own

    The wrapper around an arbitrary [fn], driven by calls and by the host's
    clock.  [calls] records every invocation of [fn] with its arguments. *)
Section Alone.
Context {A : Type}.
Variable n : Z.
Variable now : bool.

Record World : Type := mkWorld {
  queue : Timers.Queue A;
  calls : list A;
  timer : Z
}.

Definition init : World := mkWorld Timers.empty [] (-1).

Definition set_queue (q : Timers.Queue A) (w : World) : World :=
  mkWorld q (calls w) (timer w).

Definition fn (args : A) (w : World) : World :=
  mkWorld (queue w) (calls w ++ [args]) (timer w).

(** A call [debounced(args)]. *)
Definition debounced (args : A) (w : World) : Z * World :=
  let '(h, w') := wrapper queue set_queue n now fn (fun a => a) (timer w) args w in
  (h, mkWorld (queue w') (calls w') h).

Inductive Action : Type :=
| Call (args : A)
| Expire (h : Z)
| Elapse (d : Z).

Definition step (a : Action) (w : World) : World :=
  match a with
  | Call args => snd (debounced args w)
  | Expire h =>
      match Timers.expire h (queue w) with
      | Some (args, q) => fn args (set_queue q w)
      | None => w
      end
  | Elapse d => set_queue (Timers.elapse d (queue w)) w
  end.

Definition run (acts : list Action) : World := fold_left (fun w a => step a w) acts init.

Definition is_call (a : Action) : bool :=
  match a with Call _ => true | _ => false end.

(** No invocation of [fn] is pending. *)
Definition idle (w : World) : Prop := Timers.tq_pending (queue w) = [].

Definition no_call (acts : list Action) : bool :=
  forallb (fun a => negb (is_call a)) acts.

(** What holds of the captured [timer] along every run: it is [-1]
    until the first call and a handle of the host from then on, and the
    only timer that can be pending is the one it names. *)
Record timer_inv (acts : list Action) (w : World) : Prop := {
  ti_next : 0 < Timers.tq_next (queue w);
  ti_fresh : no_call acts = true -> timer w = -1 /\ Timers.tq_pending (queue w) = [];
  ti_called : no_call acts = false -> 0 < timer w;
  ti_pending : forall t, In t (Timers.tq_pending (queue w)) -> Timers.t_handle t = timer w
}.
End Alone.
Arguments World : clear implicits.
Arguments Action : clear implicits.
Arguments timer_inv {A} acts w.

End Debounce.

(** ** The NonInteractiveCallbackManager (index.ts 115-295) *)

Module Manager.

(** *** The document: nodes, events, subscriptions *)

(** A node is known by its reference; two handles are [===] when their
    references are equal.  [el_descendants] lists the nodes the element
    contains besides itself. *)
Record Element : Type := mkElement {
  el_ref : nat;
  el_id : string;
  el_parentNode : option nat;
  el_descendants : list nat
}.

(** [Node.contains]: false on [null]. *)
Definition contains (e : Element) (other : option nat) : bool :=
  match other with
  | None => false
  | Some r => Nat.eqb r (el_ref e) || existsb (Nat.eqb r) (el_descendants e)
  end.

Record Event : Type := mkEvent {
  ev_id : nat;
  ev_type : string;
  ev_target : option nat
}.

Record Document : Type := mkDocument {
  querySelector : string -> option Element
}.

Inductive InteractiveEvents : Type :=
| MOUSEMOVE | ALPHANUM | ANY_KEY | CLICK | CHANGE.

Definition event_name (e : InteractiveEvents) : string :=
  match e with
  | MOUSEMOVE => "mousemove"
  | ALPHANUM => "keypress"
  | ANY_KEY => "keydown"
  | CLICK => "click"
  | CHANGE => "change"
  end.

(** A user callback is known by the identity of its function object. *)
Definition Callback : Type := nat.

(** One entry of the trace: the callback [cb] was invoked as [cb(evt)],
    with [None] for [undefined]. *)
Definition Invocation : Type := (Callback * option Event)%type.

(** The manager's three listener functions: [this.listener], the bound
    [this.focusHandler] and the bound [this.notify]. *)
Inductive Handler : Type := HListener | HFocusHandler | HNotify.

Inductive EventTarget : Type := TDocument | TElement (ref : nat).

Record Subscription : Type := mkSub {
  sub_target : EventTarget;
  sub_type : string;
  sub_handler : Handler
}.

Definition handler_eqb (a b : Handler) : bool :=
  match a, b with
  | HListener, HListener | HFocusHandler, HFocusHandler | HNotify, HNotify => true
  | _, _ => false
  end.

Definition target_eqb (a b : EventTarget) : bool :=
  match a, b with
  | TDocument, TDocument => true
  | TElement x, TElement y => Nat.eqb x y
  | _, _ => false
  end.

Definition sub_eqb (a b : Subscription) : bool :=
  target_eqb (sub_target a) (sub_target b)
  && String.eqb (sub_type a) (sub_type b)
  && handler_eqb (sub_handler a) (sub_handler b).

(** The closures the manager gives to [setTimeout]: the empty function of
    the field initialiser (line 126), and [() => fn.apply(this, args)] of
    the two debounce wrappers, [fn] being [this.notify] or the arrow
    function of lines 176-179.  [args] keeps the first argument, the only
    one these functions have. *)
Inductive Thunk : Type :=
| ThNoop
| ThNotify (args : option Event)
| ThPulse (args : option Event).

Record Host : Type := mkHost {
  timers : Timers.Queue Thunk;
  listeners : list Subscription;
  observing : option nat;
  trace : list Invocation;
  document : Document
}.

Definition set_timers (q : Timers.Queue Thunk) (h : Host) : Host :=
  mkHost q (listeners h) (observing h) (trace h) (document h).
Definition set_listeners (l : list Subscription) (h : Host) : Host :=
  mkHost (timers h) l (observing h) (trace h) (document h).
Definition set_observing (o : option nat) (h : Host) : Host :=
  mkHost (timers h) (listeners h) o (trace h) (document h).
Definition set_trace (t : list Invocation) (h : Host) : Host :=
  mkHost (timers h) (listeners h) (observing h) t (document h).

(** [addEventListener] ignores a subscription that is already there;
    [removeEventListener] drops it. *)
Definition addEventListener (t : EventTarget) (type : string) (f : Handler)
           (h : Host) : Host :=
  let sub := mkSub t type f in
  if existsb (sub_eqb sub) (listeners h) then h
  else set_listeners (listeners h ++ [sub]) h.

Definition removeEventListener (t : EventTarget) (type : string) (f : Handler)
           (h : Host) : Host :=
  set_listeners (filter (fun s => negb (sub_eqb (mkSub t type f) s)) (listeners h)) h.

(** [MutationObserver.observe] raises a [TypeError] when its target is not
    a node; [disconnect] stops the observation. *)
Definition observe (target : option nat) (h : Host) : JsError + Host :=
  match target with
  | None =>
      inl (TypeError "Failed to execute 'observe' on 'MutationObserver': parameter 1 is not of type 'Node'.")
  | Some p => inr (set_observing (Some p) h)
  end.

Definition disconnect (h : Host) : Host := set_observing None h.

Record MutationRecord : Type := mkRecord {
  mr_target : nat;
  mr_removedNodes : list nat
}.

(** *** The instance *)

(** The private fields, and with them the variables captured by the
    closures the constructor makes: the [timer] of [debounced] and of
    [this.listener], and the delay each wrapper was made with. *)
Record Fields : Type := mkFields {
  selector : string;
  element : option Element;
  eventList : list InteractiveEvents;
  registeredCallbacks : list Callback;
  notifyOnFocusLoss : bool;
  notifyOnMouseLeave : bool;
  timeoutHandle : Z;
  debounced_timer : Z;
  listener_timer : Z;
  callbackDebounceTimeout : Z;
  eventDebounceTimeout : Z
}.

Definition set_registeredCallbacks (l : list Callback) (m : Fields) : Fields :=
  mkFields (selector m) (element m) (eventList m) l (notifyOnFocusLoss m)
           (notifyOnMouseLeave m) (timeoutHandle m) (debounced_timer m)
           (listener_timer m) (callbackDebounceTimeout m) (eventDebounceTimeout m).
Definition set_timeoutHandle (z : Z) (m : Fields) : Fields :=
  mkFields (selector m) (element m) (eventList m) (registeredCallbacks m)
           (notifyOnFocusLoss m) (notifyOnMouseLeave m) z (debounced_timer m)
           (listener_timer m) (callbackDebounceTimeout m) (eventDebounceTimeout m).
Definition set_debounced_timer (z : Z) (m : Fields) : Fields :=
  mkFields (selector m) (element m) (eventList m) (registeredCallbacks m)
           (notifyOnFocusLoss m) (notifyOnMouseLeave m) (timeoutHandle m) z
           (listener_timer m) (callbackDebounceTimeout m) (eventDebounceTimeout m).
Definition set_listener_timer (z : Z) (m : Fields) : Fields :=
  mkFields (selector m) (element m) (eventList m) (registeredCallbacks m)
           (notifyOnFocusLoss m) (notifyOnMouseLeave m) (timeoutHandle m)
           (debounced_timer m) z (callbackDebounceTimeout m) (eventDebounceTimeout m).

Record State : Type := mkState {
  this : Fields;
  host : Host
}.

Definition on_this (f : Fields -> Fields) (s : State) : State :=
  mkState (f (this s)) (host s).
Definition on_host (f : Host -> Host) (s : State) : State :=
  mkState (this s) (f (host s)).

Definition state_timers (s : State) : Timers.Queue Thunk := timers (host s).
Definition state_set_timers (q : Timers.Queue Thunk) (s : State) : State :=
  on_host (set_timers q) s.

(** Methods are state transformers that return a value. *)
Definition M (A : Type) : Type := State -> A * State.
Definition ret {A : Type} (a : A) : M A := fun s => (a, s).
Definition bind {A B : Type} (m : M A) (k : A -> M B) : M B :=
  fun s => let '(a, s') := m s in k a s'.
Definition modify (f : State -> State) : M unit := fun s => (tt, f s).
Definition exec {A : Type} (m : M A) (s : State) : State := snd (m s).

Notation "x <- m ;; k" := (bind m (fun x => k))
  (at level 61, m at next level, right associativity).
Notation "m ;; k" := (bind m (fun _ => k))
  (at level 61, right associativity).

(** [Array.prototype.forEach]. *)
Fixpoint forEach {X : Type} (l : list X) (f : X -> M unit) : M unit :=
  match l with
  | [] => ret tt
  | x :: l' => f x ;; forEach l' f
  end.

(** What a method returns: [this], or nothing. *)
Inductive Returned : Type := This | Void.

(** A user callback runs: all the model keeps of it is that it was called,
    and with what.  Callbacks do not call back into the manager. *)
Definition invoke (evt : option Event) (cb : Callback) : M unit :=
  modify (on_host (fun h => set_trace (trace h ++ [(cb, evt)]) h)).

(** Lines 215-218. *)
Definition notify (evt : option Event) : M Returned :=
  fun s => (forEach (registeredCallbacks (this s)) (invoke evt) ;; ret This) s.

(** Lines 276-279. *)
Definition cancelPending : M Returned :=
  fun s =>
    (modify (state_set_timers (Timers.clearTimeout (timeoutHandle (this s)) (state_timers s))) ;;
     ret This) s.

(** [debounced], made at line 175 by [debounce(callbackDebounceTimeout,
    this.notify)]: the function case of [Debounce.debounce], so the leading
    flag is [false]. *)
Definition debounced (args : option Event) : M Z :=
  fun s =>
    let '(h, s') :=
      Debounce.wrapper state_timers state_set_timers
        (callbackDebounceTimeout (this s)) false
        (fun a => exec (notify a)) ThNotify
        (debounced_timer (this s)) args s in
    (h, on_this (set_debounced_timer h) s').

(** The arrow function of lines 176-179. *)
Definition pulse (evt : option Event) : M unit :=
  cancelPending ;;
  h <- debounced None ;;
  modify (on_this (set_timeoutHandle h)).

(** [this.listener], made at line 176 by [debounce(eventDebounceTimeout,
    (evt) => ...)]. *)
Definition listener (args : option Event) : M Z :=
  fun s =>
    let '(h, s') :=
      Debounce.wrapper state_timers state_set_timers
        (eventDebounceTimeout (this s)) false
        (fun a => exec (pulse a)) ThPulse
        (listener_timer (this s)) args s in
    (h, on_this (set_listener_timer h) s').

(** Lines 227-232; [this.element?.contains] is [undefined] without an
    element. *)
Definition focusHandler (evt : Event) : M Returned :=
  fun s =>
    let inside :=
      match element (this s) with
      | Some e => contains e (ev_target evt)
      | None => false
      end in
    if negb inside
    then (cancelPending ;; notify None ;; ret Void) s
    else (Void, s).

(** Lines 250-256; [includes] compares function identities. *)
Definition register (f : Callback) : M Returned :=
  fun s =>
    ((if negb (existsb (Nat.eqb f) (registeredCallbacks (this s)))
      then modify (on_this (set_registeredCallbacks (registeredCallbacks (this s) ++ [f])))
      else ret tt) ;;
     ret This) s.

(** Lines 265-269. *)
Definition call (evt : option Event) : M Returned :=
  cancelPending ;;
  notify evt ;;
  ret This.

(** [this.element?.f(...)]: nothing happens without an element. *)
Definition on_element (f : Element -> Host -> Host) : M unit :=
  fun s =>
    match element (this s) with
    | Some e => modify (on_host (f e)) s
    | None => (tt, s)
    end.

(** Lines 288-294. *)
Definition release : M Returned :=
  fun s =>
    (modify (on_host disconnect) ;;
     forEach (eventList (this s))
       (fun evt => on_element (fun e =>
          removeEventListener (TElement (el_ref e)) (event_name evt) HListener)) ;;
     (if notifyOnFocusLoss (this s)
      then modify (on_host (removeEventListener TDocument "focus" HFocusHandler))
      else ret tt) ;;
     (if notifyOnMouseLeave (this s)
      then on_element (fun e =>
             removeEventListener (TElement (el_ref e)) "mouseleave" HNotify)
      else ret tt) ;;
     ret This) s.

(** [el === this.element] for a node [el]. *)
Definition is_element (el : nat) (s : State) : bool :=
  match element (this s) with
  | Some e => Nat.eqb el (el_ref e)
  | None => false
  end.

(** The [MutationCallback] of lines 195-203. *)
Definition cleanup (mutationList : list MutationRecord) : M unit :=
  forEach mutationList (fun record =>
    forEach (mr_removedNodes record) (fun el =>
      fun s => if is_element el s then (release ;; ret tt) s else (tt, s))).

(** [document.querySelector] throws a [SyntaxError], a [DOMException],
    for a string that is not a selector. *)
Inductive DOMException : Type := SyntaxError (message : string).

(** [document.querySelector(sel)] for any string [sel]: [parses] tells
    which strings the host's selector parser accepts, and the document's
    [querySelector] answers for those. *)
Definition querySelector_or_throw (parses : string -> bool) (doc : Document)
           (sel : string) : DOMException + option Element :=
  if parses sel then inr (querySelector doc sel)
  else inl (SyntaxError ("Failed to execute 'querySelector' on 'Document': '"
                         ++ sel ++ "' is not a valid selector.")%string).

(** Lines 238-241 (called by no other method): what it returns, or the
    exception of the query. *)
Definition checkMatching (parses : string -> bool) : M (DOMException + bool) :=
  fun s =>
    (match element (this s) with
     | None => inr true
     | Some e =>
         match querySelector_or_throw parses (document (host s)) (selector (this s)) with
         | inl err => inl err
         | inr (Some e') => inr (Nat.eqb (el_ref e') (el_ref e))
         | inr None => inr false
         end
     end, s).

(** *** Construction *)

(** The destructured parameter object; [None] is an absent (undefined)
    property, which takes the default of lines 149-158. *)
Record Params : Type := mkParams {
  p_selector : option string;
  p_element : option Element;
  p_eventDebounceTimeout : option Z;
  p_callbackDebounceTimeout : option Z;
  p_notifyOnFocusLoss : option bool;
  p_notifyOnMouseLeave : option bool;
  p_interactiveEvents : option (list InteractiveEvents)
}.

Definition or_default {X : Type} (d : X) (o : option X) : X :=
  match o with Some x => x | None => d end.

(** A string is truthy when it is not empty; [undefined] is falsy. *)
Definition truthy (s : string) : bool := negb (String.eqb s EmptyString).
Definition truthy_opt (o : option string) : bool :=
  match o with Some s => truthy s | None => false end.

(** The template [`#${element?.id}`]. *)
Definition hash_id (el : option Element) : string :=
  ("#" ++ match el with Some e => el_id e | None => "undefined" end)%string.

(** Line 165.  The conditional operator binds more loosely than [||]:
    the expression is [(selector || element?.id) ? `#${element?.id}` : '']. *)
Definition make_selector (sel : option string) (el : option Element) : string :=
  if truthy_opt sel || truthy_opt (option_map el_id el)
  then hash_id el
  else EmptyString.

(** Line 173: [element || assertExists(document.querySelector(this.selector))]. *)
Definition resolve_element (doc : Document) (sel : string) (el : option Element)
  : JsError + Element :=
  match el with
  | Some e => inr e
  | None => assertExists (querySelector doc sel) None
  end.

(** Lines 181-183. *)
Definition subscribe_events (e : Element) (l : list InteractiveEvents) (h : Host) : Host :=
  fold_left (fun h' evt => addEventListener (TElement (el_ref e)) (event_name evt) HListener h')
            l h.

(** The constructor, with the field initialiser of line 126 first.  The
    result is the host as the constructor leaves it, and the new instance
    or the error thrown. *)
Definition constructor (p : Params) (h0 : Host) : Host * (JsError + Fields) :=
  let '(handle0, q) := Timers.setTimeout ThNoop 0 (timers h0) in
  let h1 := set_timers q h0 in
  let sel := make_selector (p_selector p) (p_element p) in
  let interactiveEvents :=
    or_default [MOUSEMOVE; ANY_KEY; CLICK; CHANGE] (p_interactiveEvents p) in
  let focusLoss := or_default false (p_notifyOnFocusLoss p) in
  let mouseLeave := or_default true (p_notifyOnMouseLeave p) in
  if negb (truthy sel) then (h1, inl (Error "No selector or element id provided."))
  else
    match resolve_element (document h1) sel (p_element p) with
    | inl err => (h1, inl err)
    | inr e =>
        let h2 := subscribe_events e interactiveEvents h1 in
        let h3 := if focusLoss
                  then addEventListener TDocument "focus" HFocusHandler h2 else h2 in
        let h4 := if mouseLeave
                  then addEventListener (TElement (el_ref e)) "mouseleave" HNotify h3
                  else h3 in
        match observe (el_parentNode e) h4 with
        | inl err => (h4, inl err)
        | inr h5 =>
            (h5, inr (mkFields sel (Some e) interactiveEvents [] focusLoss mouseLeave
                               handle0 (-1) (-1)
                               (or_default 1000 (p_callbackDebounceTimeout p))
                               (or_default 500 (p_eventDebounceTimeout p))))
        end
    end.

(** Lines 317-336: [new NonInteractiveCallbackManager({...}).register(f)]. *)
Definition requestNonInteractiveCallback (p : Params) (f : Callback) (h0 : Host)
  : Host * (JsError + Fields) :=
  match constructor p h0 with
  | (h, inr m) =>
      let s := exec (register f) (mkState m h) in (host s, inr (this s))
  | (h, inl err) => (h, inl err)
  end.

(** *** The event loop *)

Definition handle (f : Handler) (evt : Event) : M unit :=
  match f with
  | HListener => listener (Some evt) ;; ret tt
  | HFocusHandler => focusHandler evt ;; ret tt
  | HNotify => notify (Some evt) ;; ret tt
  end.

Definition subscribed (t : EventTarget) (type : string) (sub : Subscription) : bool :=
  target_eqb (sub_target sub) t && String.eqb (sub_type sub) type.

(** The event [evt] reaches the target [t]: the listeners subscribed there
    for its type run in the order of their subscription. *)
Definition dispatch (t : EventTarget) (evt : Event) : M unit :=
  fun s =>
    forEach (filter (subscribed t (ev_type evt)) (listeners (host s)))
            (fun sub => handle (sub_handler sub) evt) s.

Definition run_thunk (th : Thunk) : M unit :=
  match th with
  | ThNoop => ret tt
  | ThNotify args => notify args ;; ret tt
  | ThPulse args => pulse args
  end.

(** What can happen to a manager: a call of one of its public methods by
    its holder, or a move of the host (an event reaches a target, the
    observer reports mutations, a timer expires, time passes). *)
Inductive Action : Type :=
| Register (f : Callback)
| Call (evt : option Event)
| CancelPending
| Release
| Dispatch (t : EventTarget) (evt : Event)
| Mutations (records : list MutationRecord)
| Expire (h : Z)
| Elapse (d : Z).

Definition step (a : Action) (s : State) : State :=
  match a with
  | Register f => exec (register f) s
  | Call evt => exec (call evt) s
  | CancelPending => exec cancelPending s
  | Release => exec release s
  | Dispatch t evt => exec (dispatch t evt) s
  | Mutations records =>
      match observing (host s) with
      | Some _ => exec (cleanup records) s
      | None => s
      end
  | Expire h =>
      match Timers.expire h (state_timers s) with
      | Some (th, q) => exec (run_thunk th) (state_set_timers q s)
      | None => s
      end
  | Elapse d => state_set_timers (Timers.elapse d (state_timers s)) s
  end.

Definition run (acts : list Action) (s : State) : State :=
  fold_left (fun s' a => step a s') acts s.

(** The moves of the host, as opposed to the calls of the holder. *)
Definition by_host (a : Action) : bool :=
  match a with
  | Dispatch _ _ | Mutations _ | Expire _ | Elapse _ => true
  | _ => false
  end.

(** Events and mutation reports, as opposed to timers. *)
Definition is_event (a : Action) : bool :=
  match a with
  | Dispatch _ _ | Mutations _ => true
  | _ => false
  end.

(** A host before the manager exists: nothing of the manager is
    subscribed or pending yet. *)
Definition pristine (h : Host) : Prop :=
  listeners h = [] /\ observing h = None /\
  Timers.tq_pending (timers h) = [] /\ 0 < Timers.tq_next (timers h).

Definition fresh_host (doc : Document) : Host :=
  mkHost Timers.empty [] None [] doc.

(** The states a manager goes through after a successful construction. *)
Inductive reachable : State -> Prop :=
| reach_new p h0 h m :
    pristine h0 -> constructor p h0 = (h, inr m) -> reachable (mkState m h)
| reach_step a s : reachable s -> reachable (step a s).

(** The pending idle-fire (callback-debounce) timers. *)
Definition is_idle_fire (t : Timers.Timer Thunk) : bool :=
  match Timers.t_thunk t with ThNotify _ => true | _ => false end.
Definition idle_fire_timers (s : State) : list (Timers.Timer Thunk) :=
  filter is_idle_fire (Timers.tq_pending (state_timers s)).

(** The sequence of callbacks after [register] calls, in the words of the
    specification: each distinct callback once, at its first insertion. *)
Fixpoint first_occurrences (fs : list Callback) : list Callback :=
  match fs with
  | [] => []
  | f :: fs' => f :: filter (fun g => negb (Nat.eqb g f)) (first_occurrences fs')
  end.

(** *** What a running manager keeps true *)

Definition with_element {X : Type} (m : Fields) (d : X) (f : Element -> X) : X :=
  match element m with Some e => f e | None => d end.

(** The subscriptions [release] takes away, in the order it does. *)
Definition released (m : Fields) (sub : Subscription) : bool :=
  with_element m false (fun e =>
    existsb (fun evt => sub_eqb (mkSub (TElement (el_ref e)) (event_name evt) HListener) sub)
            (eventList m))
  || (notifyOnFocusLoss m && sub_eqb (mkSub TDocument "focus" HFocusHandler) sub)
  || (notifyOnMouseLeave m &&
      with_element m false (fun e =>
        sub_eqb (mkSub (TElement (el_ref e)) "mouseleave" HNotify) sub)).

(** The fields no method assigns after construction. *)
Definition configuration (m : Fields)
  : string * option Element * list InteractiveEvents * bool * bool * Z * Z :=
  (selector m, element m, eventList m, notifyOnFocusLoss m, notifyOnMouseLeave m,
   callbackDebounceTimeout m, eventDebounceTimeout m).

Record Inv (s : State) : Prop := mkInv {
  inv_element : element (this s) <> None;
  inv_idle_handle :
    forall t, In t (idle_fire_timers s) ->
              Timers.t_handle t = timeoutHandle (this s) /\
              Timers.t_thunk t = ThNotify None;
  inv_idle_one : (List.length (idle_fire_timers s) <= 1)%nat;
  inv_callbacks : NoDup (registeredCallbacks (this s));
  inv_listeners :
    forall sub, In sub (listeners (host s)) -> released (this s) sub = true;
  inv_listeners_nodup : NoDup (listeners (host s))
}.

(** The element is among the removed nodes of some record. *)
Definition removes_element (records : list MutationRecord) (s : State) : bool :=
  existsb (fun r => existsb (fun el => is_element el s) (mr_removedNodes r)) records.

(** The registered callbacks are the list [l]. *)
Definition callbacks_are (l : list Callback) (s : State) : Prop :=
  registeredCallbacks (this s) = l.

(** What [notify(evt)] adds to the trace. *)
Definition invocations (evt : option Event) (m : Fields) : list Invocation :=
  map (fun cb => (cb, evt)) (registeredCallbacks m).

End Manager.

(** ** Concrete documents and runs *)

Module Examples.
Import Manager.

(** An element [#box] inside the node 0, with one child node 2. *)
Definition box : Element := mkElement 1 "box" (Some 0%nat) [2%nat].
(** The same element, detached: it has no parent node. *)
Definition detached : Element := mkElement 1 "box" None [].
(** An element of class [foo], without an id. *)
Definition foo : Element := mkElement 5 EmptyString (Some 0%nat) [].

(** A document where [.foo] selects [foo] and no other selector selects
    anything. *)
Definition doc : Document :=
  mkDocument (fun sel => if String.eqb sel ".foo" then Some foo else None).

(** An element whose id is the word [undefined], and a document where it
    is the only element: [#undefined] selects it, nothing else selects
    anything. *)
Definition undefined_element : Element := mkElement 6 "undefined" (Some 0%nat) [].
Definition doc_undefined : Document :=
  mkDocument (fun sel => if String.eqb sel "#undefined" then Some undefined_element
                         else None).

Definition defaults (sel : option string) (el : option Element) : Params :=
  mkParams sel el None None None None None.

Definition click : Event := mkEvent 7 "click" (Some 1%nat).
Definition leave : Event := mkEvent 8 "mouseleave" (Some 1%nat).
Definition focus_out : Event := mkEvent 9 "focus" (Some 6%nat).

(** The manager of [#box] with every option at its default, and with the
    focus-loss notification switched on. *)
Definition started (p : Params) : State :=
  match constructor p (fresh_host doc) with
  | (h, inr m) => mkState m h
  | (h, inl _) => mkState (mkFields EmptyString None [] [] false false 0 0 0 0 0) h
  end.
Definition box_manager : State := started (defaults None (Some box)).
Definition box_manager_focus : State :=
  started (mkParams None (Some box) None None (Some true) None None).

End Examples.

(** ** Freshness of the timer handles *)

Module Handles.
Import Manager.

Definition is_pulse (t : Timers.Timer Thunk) : bool :=
  match Timers.t_thunk t with ThPulse _ => true | _ => false end.

(** The pending event-debounce timers. *)
Definition pulse_timers (s : State) : list (Timers.Timer Thunk) :=
  filter is_pulse (Timers.tq_pending (state_timers s)).

(** What the handles of a running manager keep true: the host has handed
    out every handle in use, the two wrappers never hold the same one,
    the pending event-debounce timers are named by the [timer] of
    [this.listener], and no handle names two pending timers. *)
Record Fresh (s : State) : Prop := mkFresh {
  fresh_pending :
    forall t, In t (Timers.tq_pending (state_timers s)) ->
              0 < Timers.t_handle t < Timers.tq_next (state_timers s);
  fresh_timeoutHandle :
    0 < timeoutHandle (this s) < Timers.tq_next (state_timers s);
  fresh_debounced :
    debounced_timer (this s) = -1 \/ debounced_timer (this s) = timeoutHandle (this s);
  fresh_listener :
    listener_timer (this s) < Timers.tq_next (state_timers s);
  fresh_distinct : listener_timer (this s) <> timeoutHandle (this s);
  fresh_pulse :
    forall t, In t (pulse_timers s) -> Timers.t_handle t = listener_timer (this s);
  fresh_nodup : NoDup (map Timers.t_handle (Timers.tq_pending (state_timers s)))
}.

(** The moves of the host's clock and timers. *)
Definition is_timer_move (a : Action) : bool :=
  match a with
  | Expire _ | Elapse _ => true
  | _ => false
  end.

(** Where a manager is after an interaction event came in the state
    [s0], with no idle-fire timer pending, and nothing but time followed:
    the event-debounce timer of the event is pending; or it has expired
    and the idle-fire timer it scheduled is pending; or that one has
    expired too and the callbacks were invoked.  [early] is when the first
    of the two is due. *)
Definition early (s0 : State) : Z :=
  Timers.tq_clock (state_timers s0) + Timers.timeout (eventDebounceTimeout (this s0)).

Definition awaiting_pulse (s0 x : State) : Prop :=
  trace (host x) = trace (host s0) /\
  idle_fire_timers x = [] /\
  exists t, pulse_timers x = [t] /\ Timers.t_due t = early s0.

Definition awaiting_idle_fire (s0 x : State) : Prop :=
  trace (host x) = trace (host s0) /\
  pulse_timers x = [] /\
  exists t, idle_fire_timers x = [t] /\
            early s0 + Timers.timeout (callbackDebounceTimeout (this s0)) <= Timers.t_due t.

Definition notified (s0 x : State) : Prop :=
  trace (host x) =
    trace (host s0) ++ map (fun cb => (cb, None)) (registeredCallbacks (this s0)) /\
  idle_fire_timers x = [] /\ pulse_timers x = [] /\
  early s0 + Timers.timeout (callbackDebounceTimeout (this s0))
    <= Timers.tq_clock (state_timers x).

Definition stage (s0 x : State) : Prop :=
  registeredCallbacks (this x) = registeredCallbacks (this s0) /\
  callbackDebounceTimeout (this x) = callbackDebounceTimeout (this s0) /\
  (awaiting_pulse s0 x \/ awaiting_idle_fire s0 x \/ notified s0 x).

(** The subscription of [this.listener] for one kind of event. *)
Definition listener_sub (e : Element) (kind : InteractiveEvents) : Subscription :=
  mkSub (TElement (el_ref e)) (event_name kind) HListener.

(** A selector parser for concrete runs: it refuses the lone [#] and
    accepts every other string. *)
Definition refuses_lone_hash (sel : string) : bool := negb (String.eqb sel "#").

(** The parameter object with another selector. *)
Definition with_selector (sel : option string) (p : Params) : Params :=
  mkParams sel (p_element p) (p_eventDebounceTimeout p) (p_callbackDebounceTimeout p)
           (p_notifyOnFocusLoss p) (p_notifyOnMouseLeave p) (p_interactiveEvents p).

End Handles.

(** ** The form helper (index.ts 75-106) *)

Module FormHelper.

(** A [FormData]: the entries of the form, in order. *)
Definition FormData : Type := list (string * string).

(** What [document.getElementById] can return: a form, with the validity
    of each of its [elements] and the entries a [FormData] takes from it,
    or another element, with or without a truthy [elements] property (a
    fieldset has one). *)
Inductive Node : Type :=
| Form (controls : list bool) (entries : FormData)
| Other (elements : bool).

Record Document : Type := mkDocument {
  getElementById : string -> option Node
}.

(** The variables of the closure and what it has done: [lastState], the
    arguments of the calls of [f], the lines written to the console. *)
Record State : Type := mkState {
  lastState : string;
  delivered : list FormData;
  console : list string
}.

Definition log (line : string) (s : State) : State :=
  mkState (lastState s) (delivered s) (console s ++ [line]).

Section Helper.
(** [toString fd] is [new URLSearchParams(fd).toString()]; [f earlier fd]
    is what awaiting [f(fd)] gives, [None] when it is fulfilled, after the
    calls of [f] with the arguments [earlier].  A call of the handler is
    over before the next one starts. *)
Variable toString : FormData -> string.
Variable selector : string.
Variable f : list FormData -> FormData -> option JsError.

(** [formHelper(selector, f)], line 76: the closure starts with an empty
    [lastState]. *)
Definition formHelper : State := mkState EmptyString [] [].

(** The [FormData] constructor accepts a form only. *)
Definition newFormData (n : Node) : JsError + (list bool * FormData) :=
  match n with
  | Form controls entries => inr (controls, entries)
  | Other _ =>
      inl (TypeError "Failed to construct 'FormData': parameter 1 is not of type 'HTMLFormElement'.")
  end.

Definition has_elements (n : Node) : bool :=
  match n with
  | Form _ _ => true
  | Other elements => elements
  end.

(** One call of the function [formHelper] returns, lines 77-105: the state
    it leaves, and whether its promise is rejected or fulfilled. *)
Definition handler (doc : Document) (s : State) : State * (JsError + unit) :=
  match getElementById doc selector with
  | None => (s, inl (Error ("No element matches selector '" ++ selector ++ ".")%string))
  | Some elem =>
      if negb (has_elements elem)
      then (s, inl (Error ("Element matched by '" ++ selector
                           ++ " does not appear to be a form.")%string))
      else
        match newFormData elem with
        | inl err => (s, inl err)
        | inr (controls, frmdata) =>
            let isValid := forallb (fun valid => valid) controls in
            let currentState := toString frmdata in
            let hasChanged := negb (String.eqb currentState (lastState s)) in
            if isValid then
              if hasChanged then
                let s1 := mkState currentState (delivered s ++ [frmdata]) (console s) in
                match f (delivered s) frmdata with
                | Some err => (s1, inl err)
                | None => (log ("foo complete with " ++ currentState)%string s1, inr tt)
                end
              else (log "NO state change, skipping" s, inr tt)
            else (log "Form not valid, skippin." s, inr tt)
        end
  end.

(** The handler called once for each document of a list, the form
    changing in between. *)
Definition calls (docs : list Document) (s : State) : State :=
  fold_left (fun s' doc => fst (handler doc s')) docs s.

(** The serialized states [f] was called with. *)
Definition serials (s : State) : list string := map toString (delivered s).

(** No element of [l] equals the one before it, [prev] being before the
    first. *)
Fixpoint no_repeat (prev : string) (l : list string) : Prop :=
  match l with
  | [] => True
  | x :: l' => x <> prev /\ no_repeat x l'
  end.
End Helper.

(** A serialization for concrete runs: [name=value] joined by [&]. *)
Definition plain (fd : FormData) : string :=
  String.concat "&" (map (fun e => (fst e ++ "=" ++ snd e)%string) fd).

(** A valid sign-up form with one entry, every other id naming a
    fieldset; and a callback that fails. *)
Definition mail : FormData := [("mail"%string, "a@b"%string)].
Definition signup : Document :=
  mkDocument (fun id => if String.eqb id "signup"
                        then Some (Form [true; true] mail)
                        else Some (Other true)).
Definition offline (earlier : list FormData) (fd : FormData) : option JsError :=
  Some (Error "offline").

End FormHelper.

(** ** Bursts of calls of a debounced function *)

Module Burst.
Import Debounce.
Section Moves.
Context {A : Type}.

(** The time the moves of a list let pass. *)
Fixpoint waited (acts : list (Action A)) : Z :=
  match acts with
  | [] => 0
  | Elapse d :: rest => Z.max 0 d + waited rest
  | _ :: rest => waited rest
  end.

(** How many calls of the wrapper a list holds. *)
Definition call_count (acts : list (Action A)) : nat :=
  List.length (filter is_call acts).

(** The arguments of the invocations that are pending. *)
Definition pending_args (w : World A) : list A :=
  map Timers.t_thunk (Timers.tq_pending (queue w)).
End Moves.
End Burst.

(** * Properties *)

(** ** Timers *)

Module TimersFacts.
Import Timers.
Section Facts.
Context {T : Type}.
Implicit Types (q : Queue T) (t : Timer T).

Lemma expire_some h q th q' :
  expire h q = Some (th, q') ->
  q' = clearTimeout h q /\
  exists t, In t (tq_pending q) /\ t_handle t = h /\ t_thunk t = th /\
            t_due t <= tq_clock q.
Proof.
  unfold expire, find_timer. destruct (find _ _) as [t|] eqn:F; [|discriminate].
  destruct (Z.leb_spec (t_due t) (tq_clock q)); [|discriminate].
  intros [= <- <-]. split; [reflexivity|].
  apply find_some in F as [Hin Heq]. apply Z.eqb_eq in Heq. eauto.
Qed.

Lemma filter_clearTimeout (p : Timer T -> bool) h q :
  filter p (tq_pending (clearTimeout h q)) =
  filter (fun t => negb (t_handle t =? h)) (filter p (tq_pending q)).
Proof.
  unfold clearTimeout; cbn. induction (tq_pending q) as [|t l IH]; cbn; [reflexivity|].
  destruct (negb (t_handle t =? h)) eqn:E1, (p t) eqn:E2; cbn;
    rewrite ?E1, ?E2, IH; reflexivity.
Qed.

Lemma filter_none {X : Type} (p : X -> bool) (l : list X) :
  (forall x, In x l -> p x = false) -> filter p l = [].
Proof.
  induction l as [|x l IH]; cbn; intros H; [reflexivity|].
  rewrite (H x (or_introl eq_refl)). apply IH. intros y Hy. apply H. now right.
Qed.

Lemma filter_length_le {X : Type} (p : X -> bool) (l : list X) :
  (List.length (filter p l) <= List.length l)%nat.
Proof.
  induction l as [|x l IH]; cbn; [lia|]. destruct (p x); cbn; lia.
Qed.
End Facts.
End TimersFacts.

(** ** The debounce primitive *)

Module DebounceFacts.
Import Timers Debounce.

Section AloneFacts.
Context {A : Type}.
Variables (n : Z) (now : bool).
Implicit Types (w : World A) (acts : list (Action A)).

Lemma run_snoc acts a : run n now (acts ++ [a]) = step n now a (run n now acts).
Proof. unfold run. now rewrite fold_left_app. Qed.

Lemma no_call_snoc acts a :
  no_call (acts ++ [a]) = no_call acts && negb (is_call a).
Proof. unfold no_call. rewrite forallb_app. cbn. now rewrite andb_true_r. Qed.

Lemma timer_inv_run acts : timer_inv acts (run n now acts).
Proof.
  induction acts as [|a acts IH] using rev_ind.
  - split; cbn; intros; try easy; lia.
  - rewrite run_snoc. destruct IH as [Hn Hf Hc Hp].
    destruct a as [args|h|d]; cbn [step].
    + split; rewrite ?no_call_snoc; cbn [is_call negb];
        rewrite ?andb_false_r; try discriminate.
      * cbn. destruct ((timer _ =? -1) && now); cbn; lia.
      * intros _. cbn. destruct ((timer _ =? -1) && now); cbn; lia.
      * intros t. cbn. destruct ((timer (run n now acts) =? -1) && now); cbn;
          rewrite in_app_iff, filter_In; cbn;
          (intros [[Hin Hne]|[<-|[]]]; [|reflexivity]);
          apply Hp in Hin; rewrite Hin, Z.eqb_refl in Hne; discriminate.
    + destruct (expire h (queue (run n now acts))) as [[args q]|] eqn:E.
      * apply (@TimersFacts.expire_some A) in E as [-> (t & Hin & _)].
        split; rewrite ?no_call_snoc; cbn [is_call negb]; rewrite ?andb_true_r;
          cbn; auto.
        -- intros H. destruct (Hf H) as [_ Hnil]. rewrite Hnil in Hin. destruct Hin.
        -- intros t'. rewrite filter_In. intros [H' _]. now apply Hp.
      * split; rewrite ?no_call_snoc; cbn [is_call negb]; rewrite ?andb_true_r; auto.
    + split; rewrite ?no_call_snoc; cbn [is_call negb]; rewrite ?andb_true_r;
        cbn; auto.
Qed.
End AloneFacts.

(** C3 as stated fails: a leading-mode wrapper that is called, left alone
    until its timer has fired, and called again, has nothing pending at
    the second call and yet does not invoke [fn] during it. *)
Lemma leading_call_when_idle_is_silent :
  let w := run 10 true [Call 1%nat; Elapse 10; Expire 1] in
  idle w /\
  calls w = [1%nat; 1%nat] /\
  calls (step 10 true (Call 2%nat) w) = calls w /\
  ~ (forall (acts : list (Action nat)) (args : nat),
        idle (run 10 true acts) ->
        calls (step 10 true (Call args) (run 10 true acts))
        = calls (run 10 true acts) ++ [args]).
Proof.
  cbv zeta. repeat split.
  intros H.
  specialize (H [Call 1%nat; Elapse 10; Expire 1] 2%nat eq_refl).
  vm_compute in H. discriminate.
Qed.

(** C3, amended: in leading mode the wrapper invokes [fn] during a call
    exactly when it is the first call ever made to it; with the flag
    false, or defaulted, it never does.  Either way the call leaves one
    pending invocation, the trailing one, with the call's own arguments. *)
Theorem leading_call_only_first {A : Type} (n : Z) (now : bool)
        (acts : list (Action A)) (args : A) (g : A) :
  let w := run n now acts in
  let w' := step n now (Call args) w in
  calls w' = calls w ++ (if now && no_call acts then [args] else []) /\
  tq_pending (queue w') =
    [mkTimer (tq_next (queue w)) (tq_clock (queue w) + Timers.timeout n) args] /\
  debounce n (ImmedFunction g) None = inr (mkClosure n (Some g) false) /\
  debounce n (ImmedBoolean now) (Some g) = inr (mkClosure n (Some g) now).
Proof.
  cbv zeta. destruct (timer_inv_run n now acts) as [Hn Hf Hc Hp].
  split; [|split; [|split; reflexivity]].
  - cbn. destruct (no_call acts) eqn:E.
    + destruct (Hf eq_refl) as [-> _]. cbn. destruct now; cbn;
        [reflexivity | now rewrite app_nil_r].
    + specialize (Hc eq_refl). rewrite andb_false_r, app_nil_r.
      destruct (Z.eqb_spec (timer (run n now acts)) (-1)); [lia|]. reflexivity.
  - cbn. destruct ((timer (run n now acts) =? -1) && now); cbn;
      rewrite TimersFacts.filter_none; try reflexivity;
      intros t Ht; rewrite (Hp t Ht), Z.eqb_refl; reflexivity.
Qed.

End DebounceFacts.

(** ** The manager *)

Module ManagerFacts.
Import Timers Manager.

#[local] Arguments sub_eqb : simpl never.
#[local] Arguments event_name : simpl never.

Ltac destruct_state s :=
  let m := fresh "m" in
  let h := fresh "h" in
  let q := fresh "q" in
  destruct s as [m h]; destruct m; destruct h as [q ? ? ? ?]; destruct q.

(** *** Subscriptions *)

Lemma handler_eqb_eq a b : handler_eqb a b = true <-> a = b.
Proof. destruct a, b; cbn; intuition congruence. Qed.

Lemma target_eqb_eq a b : target_eqb a b = true <-> a = b.
Proof.
  destruct a as [|x], b as [|y]; cbn; try (intuition congruence).
  rewrite Nat.eqb_eq. intuition congruence.
Qed.

Lemma sub_eqb_eq a b : sub_eqb a b = true <-> a = b.
Proof.
  unfold sub_eqb. rewrite !andb_true_iff, target_eqb_eq, String.eqb_eq, handler_eqb_eq.
  destruct a, b; cbn; intuition congruence.
Qed.

Lemma sub_eqb_refl a : sub_eqb a a = true.
Proof. now apply sub_eqb_eq. Qed.

Lemma filter_all {X : Type} (p : X -> bool) (l : list X) :
  (forall x, In x l -> p x = true) -> filter p l = l.
Proof.
  induction l as [|x l IH]; cbn; intros H; [reflexivity|].
  rewrite (H x (or_introl eq_refl)). f_equal. apply IH. intros y Hy. apply H. now right.
Qed.

Lemma filter_filter {X : Type} (p r : X -> bool) (l : list X) :
  filter p (filter r l) = filter (fun x => r x && p x) l.
Proof.
  induction l as [|x l IH]; cbn; [reflexivity|].
  destruct (r x); cbn; [destruct (p x)|]; now rewrite IH.
Qed.

Lemma filter_single {X : Type} (p : X -> bool) (l : list X) (x : X) :
  NoDup l -> In x l -> p x = true ->
  (forall y, In y l -> p y = true -> y = x) ->
  filter p l = [x].
Proof.
  induction 1 as [|y l Hy Hnd IH]; cbn; [easy|]. intros [->|Hin] Hp Hu.
  - rewrite Hp. f_equal. apply TimersFacts.filter_none. intros z Hz.
    destruct (p z) eqn:E; [|reflexivity].
    exfalso. apply Hy. now rewrite <- (Hu z (or_intror Hz) E).
  - destruct (p y) eqn:E.
    + exfalso. apply Hy. now rewrite (Hu y (or_introl eq_refl) E).
    + apply IH; auto.
Qed.

Lemma addEventListener_listeners t ty f h sub :
  In sub (listeners (addEventListener t ty f h)) <->
  In sub (listeners h) \/ sub = mkSub t ty f.
Proof.
  unfold addEventListener. destruct (existsb _ _) eqn:E; cbn.
  - split; [auto|]. intros [H| ->]; [exact H|].
    apply existsb_exists in E as (x & Hx & Heq). apply sub_eqb_eq in Heq. now subst.
  - rewrite in_app_iff; cbn. intuition congruence.
Qed.

Lemma addEventListener_nodup t ty f h :
  NoDup (listeners h) -> NoDup (listeners (addEventListener t ty f h)).
Proof.
  intros Hnd. unfold addEventListener. destruct (existsb _ _) eqn:E; cbn; [exact Hnd|].
  apply NoDup_app; [exact Hnd | repeat constructor; easy |].
  intros x Hx [<-|[]].
  assert (existsb (sub_eqb (mkSub t ty f)) (listeners h) = true); [|congruence].
  apply existsb_exists. exists (mkSub t ty f). split; [exact Hx | apply sub_eqb_refl].
Qed.

Lemma addEventListener_rest t ty f h :
  timers (addEventListener t ty f h) = timers h /\
  observing (addEventListener t ty f h) = observing h /\
  trace (addEventListener t ty f h) = trace h /\
  document (addEventListener t ty f h) = document h.
Proof. unfold addEventListener. destruct (existsb _ _); cbn; auto. Qed.

Lemma subscribe_events_listeners e l h sub :
  In sub (listeners (subscribe_events e l h)) <->
  In sub (listeners h) \/
  exists evt, In evt l /\ sub = mkSub (TElement (el_ref e)) (event_name evt) HListener.
Proof.
  unfold subscribe_events. revert h. induction l as [|x l IH]; intros h; cbn.
  - split; [auto|]. intros [H|(evt & [] & _)]. exact H.
  - rewrite IH, addEventListener_listeners. split.
    + intros [[H| ->]|(evt & Hin & ->)]; eauto 6.
    + intros [H|(evt & [<-|Hin] & ->)]; eauto 6.
Qed.

Lemma subscribe_events_nodup e l h :
  NoDup (listeners h) -> NoDup (listeners (subscribe_events e l h)).
Proof.
  unfold subscribe_events. revert h. induction l as [|x l IH]; intros h H; cbn; [exact H|].
  apply IH. now apply addEventListener_nodup.
Qed.

Lemma subscribe_events_rest e l h :
  timers (subscribe_events e l h) = timers h /\
  observing (subscribe_events e l h) = observing h /\
  trace (subscribe_events e l h) = trace h /\
  document (subscribe_events e l h) = document h.
Proof.
  unfold subscribe_events. revert h. induction l as [|x l IH]; intros h; cbn; [auto|].
  destruct (IH (addEventListener (TElement (el_ref e)) (event_name x) HListener h))
    as (-> & -> & -> & ->).
  apply addEventListener_rest.
Qed.

(** *** What each method does to the state *)

Lemma forEach_invoke evt l s :
  forEach l (invoke evt) s =
  (tt, on_host (fun h => set_trace (trace h ++ map (fun cb => (cb, evt)) l) h) s).
Proof.
  revert s. induction l as [|cb l IH]; intros s; destruct_state s; cbn.
  - unfold ret, on_host, set_trace; cbn. now rewrite app_nil_r.
  - unfold bind, invoke, modify, on_host, set_trace; cbn. rewrite IH.
    unfold on_host, set_trace; cbn. now rewrite <- app_assoc.
Qed.

Lemma notify_spec evt s :
  notify evt s =
  (This, on_host (fun h => set_trace (trace h ++ invocations evt (this s)) h) s).
Proof. unfold notify, bind. now rewrite forEach_invoke. Qed.

Lemma cancelPending_spec s :
  cancelPending s =
  (This, state_set_timers (clearTimeout (timeoutHandle (this s)) (state_timers s)) s).
Proof. reflexivity. Qed.

Lemma debounced_spec args s :
  debounced args s =
  let q := clearTimeout (debounced_timer (this s)) (state_timers s) in
  (tq_next q,
   mkState (set_debounced_timer (tq_next q) (this s))
           (set_timers (snd (setTimeout (ThNotify args) (callbackDebounceTimeout (this s)) q))
                       (host s))).
Proof.
  unfold debounced, Debounce.wrapper. rewrite andb_false_r. destruct_state s. reflexivity.
Qed.

Lemma listener_spec args s :
  listener args s =
  let q := clearTimeout (listener_timer (this s)) (state_timers s) in
  (tq_next q,
   mkState (set_listener_timer (tq_next q) (this s))
           (set_timers (snd (setTimeout (ThPulse args) (eventDebounceTimeout (this s)) q))
                       (host s))).
Proof.
  unfold listener, Debounce.wrapper. rewrite andb_false_r. destruct_state s. reflexivity.
Qed.

Lemma pulse_spec evt s :
  pulse evt s =
  let q := clearTimeout (debounced_timer (this s))
             (clearTimeout (timeoutHandle (this s)) (state_timers s)) in
  (tt,
   mkState (set_timeoutHandle (tq_next q) (set_debounced_timer (tq_next q) (this s)))
           (set_timers (snd (setTimeout (ThNotify None) (callbackDebounceTimeout (this s)) q))
                       (host s))).
Proof.
  unfold pulse, bind. rewrite cancelPending_spec, debounced_spec.
  destruct_state s. reflexivity.
Qed.

Lemma call_spec evt s :
  call evt s =
  (This,
   mkState (this s)
           (set_trace (trace (host s) ++ invocations evt (this s))
              (set_timers (clearTimeout (timeoutHandle (this s)) (state_timers s)) (host s)))).
Proof.
  unfold call, bind. rewrite cancelPending_spec, notify_spec. destruct_state s. reflexivity.
Qed.

Lemma register_spec f s :
  register f s =
  (This,
   if existsb (Nat.eqb f) (registeredCallbacks (this s)) then s
   else on_this (set_registeredCallbacks (registeredCallbacks (this s) ++ [f])) s).
Proof.
  unfold register, bind. destruct (existsb _ _); reflexivity.
Qed.

Lemma forEach_remove l s :
  forEach l (fun evt => on_element (fun e =>
     removeEventListener (TElement (el_ref e)) (event_name evt) HListener)) s =
  (tt,
   on_host (fun h =>
     set_listeners
       (filter (fun sub => negb (with_element (this s) false (fun e =>
                  existsb (fun evt =>
                    sub_eqb (mkSub (TElement (el_ref e)) (event_name evt) HListener) sub) l)))
               (listeners h)) h) s).
Proof.
  revert s. induction l as [|evt l IH]; intros s.
  - destruct_state s. unfold with_element, on_host, set_listeners, ret; cbn.
    rewrite filter_all; [reflexivity|]. intros x _. now destruct element0.
  - cbn [forEach]. unfold bind, on_element at 1.
    destruct (element (this s)) as [e|] eqn:He.
    + unfold modify. rewrite IH. destruct_state s. cbn in He. subst.
      unfold with_element, on_host, set_listeners, removeEventListener; cbn.
      rewrite filter_filter. erewrite filter_ext; [reflexivity|].
      intros sub. cbn. now rewrite negb_orb.
    + rewrite IH. destruct_state s. cbn in He. subst. reflexivity.
Qed.

Lemma release_spec s :
  release s =
  (This,
   mkState (this s)
           (set_listeners
              (filter (fun sub => negb (released (this s) sub)) (listeners (host s)))
              (disconnect (host s)))).
Proof.
  unfold release, bind. unfold modify at 1. rewrite forEach_remove.
  destruct_state s. unfold released, with_element, on_element.
  cbv beta iota delta [this host element notifyOnFocusLoss notifyOnMouseLeave eventList].
  destruct notifyOnFocusLoss0, notifyOnMouseLeave0, element0 as [e|];
    cbv beta iota delta [ret modify on_host set_listeners removeEventListener disconnect
         set_observing this host listeners timers observing trace document];
    rewrite ?filter_filter;
    match goal with
    | |- (_, mkState _ (mkHost _ (filter ?f _) _ _ _)) =
         (_, mkState _ (mkHost _ (filter ?g _) _ _ _)) =>
        rewrite (filter_ext f g); [reflexivity|]
    end;
    intros sub; cbn [andb orb negb];
    rewrite ?negb_orb, ?orb_false_r, ?andb_true_r, ?andb_assoc; reflexivity.
Qed.

Lemma release_idempotent s : exec release (exec release s) = exec release s.
Proof.
  unfold exec. rewrite !release_spec. cbn. f_equal.
  unfold set_listeners, disconnect, set_observing; cbn. f_equal.
  rewrite filter_filter. apply filter_ext. intros sub. now rewrite andb_diag.
Qed.

Lemma is_element_release el s : is_element el (exec release s) = is_element el s.
Proof. unfold exec. now rewrite release_spec. Qed.

Lemma cleanup_nodes nodes s :
  forEach nodes (fun el => fun s' =>
     if is_element el s' then (release ;; ret tt) s' else (tt, s')) s =
  (tt, if existsb (fun el => is_element el s) nodes then exec release s else s).
Proof.
  revert s. induction nodes as [|el nodes IH]; intros s; [reflexivity|].
  cbn [forEach existsb]. unfold bind at 1. destruct (is_element el s) eqn:E.
  - unfold bind at 1, ret. destruct (release s) as [r s1] eqn:R.
    assert (Hs1 : s1 = exec release s) by (unfold exec; now rewrite R).
    rewrite IH, Hs1. cbn. f_equal.
    destruct (existsb _ nodes); [apply release_idempotent | reflexivity].
  - rewrite IH. reflexivity.
Qed.

Lemma existsb_pointwise {X : Type} (p r : X -> bool) (l : list X) :
  (forall x, p x = r x) -> existsb p l = existsb r l.
Proof. intros H. induction l as [|x l IH]; cbn; [reflexivity|]. now rewrite H, IH. Qed.

Lemma removes_element_release records s :
  removes_element records (exec release s) = removes_element records s.
Proof.
  unfold removes_element. apply existsb_pointwise. intros r.
  apply existsb_pointwise. intros el. apply is_element_release.
Qed.

Lemma cleanup_spec records s :
  cleanup records s = (tt, if removes_element records s then exec release s else s).
Proof.
  unfold cleanup, removes_element. revert s.
  induction records as [|r records IH]; intros s; [reflexivity|].
  cbn [forEach existsb]. unfold bind at 1. rewrite cleanup_nodes.
  destruct (existsb _ (mr_removedNodes r)) eqn:E; cbn.
  - rewrite IH. f_equal.
    fold (removes_element records (exec release s)) (removes_element records s).
    rewrite removes_element_release.
    destruct (removes_element records s); [apply release_idempotent | reflexivity].
  - apply IH.
Qed.

Lemma focusHandler_spec evt s :
  focusHandler evt s =
  (Void,
   if with_element (this s) false (fun e => contains e (ev_target evt)) then s
   else exec (call None) s).
Proof.
  unfold focusHandler, with_element.
  destruct (element (this s)) as [e|]; [destruct (contains e _)|]; cbn [negb];
    try reflexivity;
    unfold exec, bind; rewrite call_spec, cancelPending_spec, notify_spec;
    destruct_state s; reflexivity.
Qed.

(** *** The invariant *)

Lemma released_configuration m m' sub :
  configuration m' = configuration m -> released m' sub = released m sub.
Proof.
  unfold configuration, released, with_element. intros [= _ -> -> -> -> _ _]. reflexivity.
Qed.

Lemma Inv_of s s' :
  Inv s ->
  configuration (this s') = configuration (this s) ->
  NoDup (registeredCallbacks (this s')) ->
  (forall sub, In sub (listeners (host s')) -> In sub (listeners (host s))) ->
  NoDup (listeners (host s')) ->
  (forall t, In t (idle_fire_timers s') ->
             t_handle t = timeoutHandle (this s') /\ t_thunk t = ThNotify None) ->
  (List.length (idle_fire_timers s') <= 1)%nat ->
  Inv s'.
Proof.
  intros [He Hh H1 Hc Hl Hn] Hcfg Hc' Hl' Hn' Hh' H1'. split; auto.
  - assert (E : element (this s') = element (this s))
      by (unfold configuration in Hcfg; congruence).
    now rewrite E.
  - intros sub Hin. rewrite (released_configuration _ _ _ Hcfg). auto.
Qed.

(** The idle-fire timers after the two operations of the host. *)
Lemma idle_fire_clear h q :
  filter is_idle_fire (tq_pending (clearTimeout h q)) =
  filter (fun t => negb (t_handle t =? h)) (filter is_idle_fire (tq_pending q)).
Proof. apply TimersFacts.filter_clearTimeout. Qed.

Lemma idle_fire_set th n q :
  filter is_idle_fire (tq_pending (snd (setTimeout th n q))) =
  filter is_idle_fire (tq_pending q) ++
  (if is_idle_fire (mkTimer (tq_next q) (tq_clock q + Timers.timeout n) th)
   then [mkTimer (tq_next q) (tq_clock q + Timers.timeout n) th] else []).
Proof. unfold setTimeout; cbn [snd tq_pending]. rewrite filter_app. reflexivity. Qed.

(** A state whose idle-fire timers are some of those of [s], the rest of
    what the invariant looks at being as in [s]. *)
Lemma Inv_fewer_timers s s' (p : Timer Thunk -> bool) :
  Inv s ->
  configuration (this s') = configuration (this s) ->
  registeredCallbacks (this s') = registeredCallbacks (this s) ->
  listeners (host s') = listeners (host s) ->
  timeoutHandle (this s') = timeoutHandle (this s) ->
  idle_fire_timers s' = filter p (idle_fire_timers s) ->
  Inv s'.
Proof.
  intros HI Hcfg Hc Hl Ht Hf. pose proof HI as [He Hh H1 Hcb Hls Hn].
  apply (Inv_of s); auto.
  - now rewrite Hc.
  - now rewrite Hl.
  - now rewrite Hl.
  - intros t. rewrite Hf, Ht, filter_In. intros [Hin _]. auto.
  - rewrite Hf. etransitivity; [apply TimersFacts.filter_length_le | exact H1].
Qed.

Lemma inv_notify evt s : Inv s -> Inv (exec (notify evt) s).
Proof.
  intros HI. unfold exec. rewrite notify_spec.
  apply (Inv_fewer_timers s _ (fun _ => true)); auto; destruct_state s; cbn; auto.
  symmetry. apply filter_all. auto.
Qed.

Lemma inv_clear h s :
  Inv s -> Inv (state_set_timers (clearTimeout h (state_timers s)) s).
Proof.
  intros HI.
  apply (Inv_fewer_timers s _ (fun t => negb (t_handle t =? h))); auto;
    destruct_state s; try reflexivity.
  unfold idle_fire_timers, state_timers, state_set_timers; cbn [host on_host timers set_timers].
  apply idle_fire_clear.
Qed.

Lemma inv_cancelPending s : Inv s -> Inv (exec cancelPending s).
Proof. intros HI. unfold exec. rewrite cancelPending_spec. now apply inv_clear. Qed.

Lemma inv_call evt s : Inv s -> Inv (exec (call evt) s).
Proof.
  intros HI. unfold call, exec, bind.
  destruct (cancelPending s) as [r s1] eqn:E1.
  assert (H1 : Inv s1) by (replace s1 with (exec cancelPending s);
    [now apply inv_cancelPending | unfold exec; now rewrite E1]).
  destruct (notify evt s1) as [r2 s2] eqn:E2. cbn.
  replace s2 with (exec (notify evt) s1); [now apply inv_notify | unfold exec; now rewrite E2].
Qed.

Lemma inv_elapse d s :
  Inv s -> Inv (state_set_timers (elapse d (state_timers s)) s).
Proof.
  intros HI. apply (Inv_fewer_timers s _ (fun _ => true)); auto;
    destruct_state s; try reflexivity.
  unfold idle_fire_timers; cbn. symmetry. apply filter_all. auto.
Qed.

Lemma inv_listener args s : Inv s -> Inv (exec (listener args) s).
Proof.
  intros HI. unfold exec. rewrite listener_spec. cbv zeta. cbn [snd].
  apply (Inv_fewer_timers s _ (fun t => negb (t_handle t =? listener_timer (this s))));
    auto; try (destruct_state s; reflexivity).
  unfold idle_fire_timers, state_timers. cbn [host timers set_timers].
  rewrite idle_fire_set. cbn [is_idle_fire t_thunk]. rewrite app_nil_r.
  apply idle_fire_clear.
Qed.

(** After a pulse the one idle-fire timer is the one just scheduled. *)
Lemma idle_fire_pulse evt s :
  Inv s ->
  idle_fire_timers (exec (pulse evt) s) =
  [mkTimer (timeoutHandle (this (exec (pulse evt) s)))
           (tq_clock (state_timers s) + Timers.timeout (callbackDebounceTimeout (this s)))
           (ThNotify None)].
Proof.
  intros HI. unfold exec. rewrite pulse_spec. cbv zeta. cbn [snd].
  unfold idle_fire_timers, state_timers. cbn [host timers set_timers this].
  rewrite idle_fire_set, !idle_fire_clear. cbn [is_idle_fire t_thunk].
  rewrite (TimersFacts.filter_none _ (filter is_idle_fire _)).
  - cbn. destruct_state s. reflexivity.
  - intros t Ht. destruct (inv_idle_handle s HI t Ht) as [-> _].
    now rewrite Z.eqb_refl.
Qed.

Lemma inv_pulse evt s : Inv s -> Inv (exec (pulse evt) s).
Proof.
  intros HI. pose proof (idle_fire_pulse evt s HI) as Hp.
  pose proof HI as [He Hh H1 Hcb Hls Hn].
  apply (Inv_of s); auto; try rewrite Hp;
    try (unfold exec; rewrite pulse_spec; destruct_state s; cbn; now auto).
  intros t [<-|[]]. cbn. auto.
Qed.

Lemma inv_register f s : Inv s -> Inv (exec (register f) s).
Proof.
  intros HI. unfold exec. rewrite register_spec. cbn [snd].
  destruct (existsb _ _) eqn:E; [exact HI|].
  pose proof HI as [He Hh H1 Hcb Hls Hn].
  apply (Inv_of s); auto; try (destruct_state s; cbn; now auto).
  replace (registeredCallbacks (this (on_this _ s)))
    with (registeredCallbacks (this s) ++ [f]) by (destruct_state s; reflexivity).
  apply NoDup_app; [exact Hcb | repeat constructor; easy |].
  intros x Hx [<-|[]].
  assert (existsb (Nat.eqb f) (registeredCallbacks (this s)) = true); [|congruence].
  apply existsb_exists. exists f. split; [exact Hx | apply Nat.eqb_refl].
Qed.

Lemma inv_release s : Inv s -> Inv (exec release s).
Proof.
  intros HI. unfold exec. rewrite release_spec. cbn [snd].
  pose proof HI as [He Hh H1 Hcb Hls Hn].
  apply (Inv_of s); auto; cbn [this host listeners set_listeners].
  - intros sub. rewrite filter_In. tauto.
  - now apply NoDup_filter.
Qed.

Lemma inv_focusHandler evt s : Inv s -> Inv (exec (focusHandler evt) s).
Proof.
  intros HI. unfold exec. rewrite focusHandler_spec. cbn [snd].
  destruct (with_element _ _ _); [exact HI | now apply inv_call].
Qed.

Lemma exec_then_ret {X Y : Type} (m : M X) (y : Y) s : exec (m ;; ret y) s = exec m s.
Proof. unfold exec, bind, ret. now destruct (m s). Qed.

Lemma exec_bind {X Y : Type} (m : M X) (k : X -> M Y) s :
  exec (bind m k) s = exec (k (fst (m s))) (exec m s).
Proof. unfold exec, bind. now destruct (m s). Qed.

Lemma forEach_preserves {X : Type} (P : State -> Prop) (f : X -> M unit) (l : list X) :
  (forall x s, P s -> P (exec (f x) s)) ->
  forall s, P s -> P (exec (forEach l f) s).
Proof.
  intros Hf. induction l as [|x l IH]; intros s Hs; [exact Hs|].
  cbn [forEach]. rewrite exec_bind. apply IH, Hf, Hs.
Qed.

Lemma inv_handle f evt s : Inv s -> Inv (exec (handle f evt) s).
Proof.
  intros HI. destruct f; cbn [handle]; rewrite exec_then_ret.
  - now apply inv_listener.
  - now apply inv_focusHandler.
  - now apply inv_notify.
Qed.

Lemma inv_dispatch t evt s : Inv s -> Inv (exec (dispatch t evt) s).
Proof.
  intros HI. unfold dispatch.
  change (Inv (exec (forEach (filter (subscribed t (ev_type evt)) (listeners (host s)))
                             (fun sub => handle (sub_handler sub) evt)) s)).
  apply forEach_preserves; [|exact HI]. intros sub s'. apply inv_handle.
Qed.

Lemma inv_cleanup records s : Inv s -> Inv (exec (cleanup records) s).
Proof.
  intros HI. unfold exec. rewrite cleanup_spec. cbn [snd].
  destruct (removes_element records s); [now apply inv_release | exact HI].
Qed.

Lemma inv_run_thunk th s : Inv s -> Inv (exec (run_thunk th) s).
Proof.
  intros HI. destruct th as [|args|args]; cbn [run_thunk].
  - exact HI.
  - rewrite exec_then_ret. now apply inv_notify.
  - now apply inv_pulse.
Qed.

Lemma inv_step a s : Inv s -> Inv (step a s).
Proof.
  intros HI. destruct a; cbn [step].
  - now apply inv_register.
  - now apply inv_call.
  - now apply inv_cancelPending.
  - now apply inv_release.
  - now apply inv_dispatch.
  - destruct (observing (host s)); [now apply inv_cleanup | exact HI].
  - destruct (expire h (state_timers s)) as [[th q]|] eqn:E; [|exact HI].
    apply TimersFacts.expire_some in E as [-> _].
    now apply inv_run_thunk, inv_clear.
  - now apply inv_elapse.
Qed.

Lemma released_listener m e evt :
  element m = Some e -> In evt (eventList m) ->
  released m (mkSub (TElement (el_ref e)) (event_name evt) HListener) = true.
Proof.
  intros He Hin. unfold released, with_element. rewrite He.
  apply orb_true_intro. left. apply orb_true_intro. left.
  apply existsb_exists. exists evt. split; [exact Hin | apply sub_eqb_refl].
Qed.

Lemma released_focus m :
  notifyOnFocusLoss m = true -> released m (mkSub TDocument "focus" HFocusHandler) = true.
Proof.
  intros H. unfold released. rewrite H, sub_eqb_refl. cbn. now rewrite orb_true_r.
Qed.

Lemma released_mouseleave m e :
  element m = Some e -> notifyOnMouseLeave m = true ->
  released m (mkSub (TElement (el_ref e)) "mouseleave" HNotify) = true.
Proof.
  intros He H. unfold released, with_element. rewrite He, H, sub_eqb_refl. cbn.
  now rewrite orb_true_r.
Qed.

(** The host and the instance a successful construction leaves. *)
Lemma constructor_success p h0 h m :
  constructor p h0 = (h, inr m) ->
  exists e parent,
    resolve_element (document h0) (make_selector (p_selector p) (p_element p)) (p_element p)
      = inr e /\
    el_parentNode e = Some parent /\
    truthy (make_selector (p_selector p) (p_element p)) = true /\
    m = mkFields (make_selector (p_selector p) (p_element p)) (Some e)
                 (or_default [MOUSEMOVE; ANY_KEY; CLICK; CHANGE] (p_interactiveEvents p))
                 [] (or_default false (p_notifyOnFocusLoss p))
                 (or_default true (p_notifyOnMouseLeave p))
                 (tq_next (timers h0)) (-1) (-1)
                 (or_default 1000 (p_callbackDebounceTimeout p))
                 (or_default 500 (p_eventDebounceTimeout p)) /\
    h = set_observing (Some parent)
          ((if or_default true (p_notifyOnMouseLeave p)
            then addEventListener (TElement (el_ref e)) "mouseleave" HNotify
            else fun x => x)
             ((if or_default false (p_notifyOnFocusLoss p)
               then addEventListener TDocument "focus" HFocusHandler
               else fun x => x)
                (subscribe_events e
                   (or_default [MOUSEMOVE; ANY_KEY; CLICK; CHANGE] (p_interactiveEvents p))
                   (set_timers (snd (setTimeout ThNoop 0 (timers h0))) h0)))).
Proof.
  unfold constructor. cbn [setTimeout]. cbv zeta.
  cbn [document set_timers].
  destruct (truthy _) eqn:Ht; cbn [negb]; [|discriminate].
  destruct (resolve_element _ _ _) as [err|e] eqn:Hr; [discriminate|].
  destruct (el_parentNode e) as [parent|] eqn:Hp; cbn [observe]; [|discriminate].
  intros [= <- <-]. exists e, parent. repeat split; auto.
  destruct (or_default true _), (or_default false _); reflexivity.
Qed.

Lemma inv_constructor p h0 h m :
  pristine h0 -> constructor p h0 = (h, inr m) -> Inv (mkState m h).
Proof.
  intros (Hl & Ho & Hp & Hn) Hc.
  apply constructor_success in Hc as (e & parent & Hr & Hpar & Ht & -> & ->).
  set (evl := or_default _ (p_interactiveEvents p)).
  set (fl := or_default false _). set (ml := or_default true _).
  set (h1 := set_timers _ h0).
  set (h2 := subscribe_events e evl h1).
  set (h3 := (if fl then _ else _) h2).
  set (h4 := (if ml then _ else _) h3).
  assert (L2 : forall sub, In sub (listeners h2) ->
             exists evt, In evt evl /\
               sub = mkSub (TElement (el_ref e)) (event_name evt) HListener).
  { intros sub Hin. apply subscribe_events_listeners in Hin as [Hin|Hin]; [|exact Hin].
    cbn in Hin. rewrite Hl in Hin. destruct Hin. }
  assert (N2 : NoDup (listeners h2)).
  { apply subscribe_events_nodup. cbn. rewrite Hl. constructor. }
  assert (L3 : forall sub, In sub (listeners h3) ->
             In sub (listeners h2) \/
             (fl = true /\ sub = mkSub TDocument "focus" HFocusHandler)).
  { subst h3. destruct fl; [|auto]. intros sub Hin.
    apply addEventListener_listeners in Hin. tauto. }
  assert (N3 : NoDup (listeners h3)).
  { subst h3. destruct fl; [now apply addEventListener_nodup | exact N2]. }
  assert (L4 : forall sub, In sub (listeners h4) ->
             In sub (listeners h3) \/
             (ml = true /\ sub = mkSub (TElement (el_ref e)) "mouseleave" HNotify)).
  { subst h4. destruct ml; [|auto]. intros sub Hin.
    apply addEventListener_listeners in Hin. tauto. }
  assert (N4 : NoDup (listeners h4)).
  { subst h4. destruct ml; [now apply addEventListener_nodup | exact N3]. }
  assert (T4 : timers h4 = timers h1).
  { subst h4 h3 h2.
    destruct ml, fl;
      rewrite ?(proj1 (addEventListener_rest _ _ _ _));
      apply (proj1 (subscribe_events_rest _ _ _)). }
  split; cbn [this host element registeredCallbacks timeoutHandle].
  - discriminate.
  - unfold idle_fire_timers, state_timers. cbn [host timers set_observing].
    rewrite T4. subst h1. cbn. rewrite Hp. cbn. intros t [].
  - unfold idle_fire_timers, state_timers. cbn [host timers set_observing].
    rewrite T4. subst h1. cbn. rewrite Hp. cbn. lia.
  - constructor.
  - cbn [listeners set_observing]. intros sub Hin.
    apply L4 in Hin as [Hin|[Hml ->]]; [|now apply released_mouseleave].
    apply L3 in Hin as [Hin|[Hfl ->]]; [|now apply released_focus].
    apply L2 in Hin as (evt & Hin & ->). now apply released_listener.
  - exact N4.
Qed.

(** Every state a manager goes through satisfies the invariant. *)
Lemma reachable_Inv s : reachable s -> Inv s.
Proof.
  induction 1 as [p h0 h m Hp Hc|a s _ IH].
  - eapply inv_constructor; eassumption.
  - now apply inv_step.
Qed.

(** *** Runs *)

Lemma run_reachable acts s : reachable s -> reachable (run acts s).
Proof.
  unfold run. revert s. induction acts as [|a acts IH]; intros s H; [exact H|].
  cbn. apply IH. now constructor.
Qed.

Lemma pristine_fresh doc : pristine (fresh_host doc).
Proof. repeat split. Qed.

Lemma started_reachable p h m :
  constructor p (fresh_host Examples.doc) = (h, inr m) -> reachable (Examples.started p).
Proof.
  intros H. unfold Examples.started. rewrite H.
  eapply reach_new; [apply pristine_fresh | exact H].
Qed.

Lemma box_manager_reachable : reachable Examples.box_manager.
Proof. eapply started_reachable. reflexivity. Qed.

Lemma box_manager_focus_reachable : reachable Examples.box_manager_focus.
Proof. eapply started_reachable. reflexivity. Qed.

(** *** Release *)

Lemma release_clears s :
  Inv s ->
  listeners (host (exec release s)) = [] /\ observing (host (exec release s)) = None.
Proof.
  intros HI. unfold exec. rewrite release_spec. cbn. split; [|reflexivity].
  apply TimersFacts.filter_none. intros sub Hin.
  now rewrite (inv_listeners s HI sub Hin).
Qed.

(** With nothing subscribed and the observer disconnected, events and
    mutation reports change nothing. *)
Lemma quiet_run acts s :
  listeners (host s) = [] -> observing (host s) = None ->
  forallb is_event acts = true -> run acts s = s.
Proof.
  intros Hl Ho. unfold run. induction acts as [|a acts IH]; cbn; [reflexivity|].
  intros H. apply andb_true_iff in H as [Ha Hacts].
  destruct a; try discriminate; cbn [step].
  - unfold exec, dispatch. rewrite Hl. cbn. now apply IH.
  - rewrite Ho. now apply IH.
Qed.

Lemma released_is_quiet s acts :
  Inv s -> forallb is_event acts = true ->
  run acts (exec release s) = exec release s.
Proof.
  intros HI Hacts. destruct (release_clears s HI) as [Hl Ho]. now apply quiet_run.
Qed.

(** C2 fails on the code: [release] cancels no timer, so a debounce timer
    that is pending when it is called still fires.  Here a click is
    followed by [release]; no idle-fire timer is pending then, nothing was
    invoked; the event-debounce timer then expires and schedules an
    idle-fire timer, which expires in turn and invokes the registered
    callback, by moves of the host alone. *)
Lemma release_keeps_pending_timers :
  let s := run [Register 3%nat; Dispatch (TElement 1) Examples.click] Examples.box_manager in
  let later := [Elapse 500; Expire 2; Elapse 1000; Expire 3] in
  reachable s /\
  forallb by_host later = true /\
  trace (host (step Release s)) = [] /\
  idle_fire_timers (step Release s) = [] /\
  idle_fire_timers (run [Elapse 500; Expire 2] (step Release s))
    = [mkTimer 3 1500 (ThNotify None)] /\
  trace (host (run later (step Release s))) = [(3%nat, None)] /\
  ~ (forall s' acts,
        reachable s' -> forallb by_host acts = true ->
        trace (host (run acts (step Release s'))) = trace (host (step Release s'))).
Proof.
  cbv zeta.
  assert (R : reachable (run [Register 3%nat; Dispatch (TElement 1) Examples.click]
                             Examples.box_manager))
    by apply run_reachable, box_manager_reachable.
  split; [exact R|]. do 5 (split; [reflexivity|]).
  intros H.
  specialize (H _ [Elapse 500; Expire 2; Elapse 1000; Expire 3] R eq_refl).
  vm_compute in H. discriminate.
Qed.

(** What [release] does achieve: once it has run, no event that reaches
    the element or the document (interaction, focus, mouse-leave) and no
    mutation report invokes a callback or schedules a timer: nothing is
    subscribed any more and the state stays as [release] left it. *)
Theorem release_silences_events s acts :
  reachable s -> forallb is_event acts = true ->
  listeners (host (step Release s)) = [] /\
  observing (host (step Release s)) = None /\
  state_timers (step Release s) = state_timers s /\
  run acts (step Release s) = step Release s.
Proof.
  intros Hr Hacts. cbn [step].
  destruct (release_clears s (reachable_Inv s Hr)) as [Hl Ho].
  repeat split; auto.
  - unfold exec. rewrite release_spec. reflexivity.
  - apply released_is_quiet; [now apply reachable_Inv | exact Hacts].
Qed.

Lemma release_silences_events_witness :
  let s := run [Register 3%nat; Dispatch (TElement 1) Examples.click]
               Examples.box_manager_focus in
  let acts := [Dispatch (TElement 1) Examples.click;
               Dispatch (TElement 1) Examples.leave;
               Dispatch TDocument Examples.focus_out] in
  reachable s /\ forallb is_event acts = true /\
  run acts (step Release s) = step Release s.
Proof.
  cbv zeta.
  assert (H : reachable (run [Register 3%nat; Dispatch (TElement 1) Examples.click]
                             Examples.box_manager_focus))
    by apply run_reachable, box_manager_focus_reachable.
  split; [exact H|]. split; [reflexivity|].
  exact (proj2 (proj2 (proj2 (release_silences_events _
           [Dispatch (TElement 1) Examples.click;
            Dispatch (TElement 1) Examples.leave;
            Dispatch TDocument Examples.focus_out] H eq_refl)))).
Defined.

(** *** Teardown on removal *)

(** C7: when the observer, still connected, reports the element among the
    removed nodes, the state is the one [release] gives, and the events
    that follow invoke no callback. *)
Theorem removal_tears_down s records acts :
  reachable s -> observing (host s) <> None ->
  removes_element records s = true ->
  forallb is_event acts = true ->
  step (Mutations records) s = step Release s /\
  run acts (step (Mutations records) s) = step Release s /\
  trace (host (run acts (step (Mutations records) s))) = trace (host s).
Proof.
  intros Hr Ho Hrem Hacts.
  assert (E : step (Mutations records) s = step Release s).
  { cbn [step]. destruct (observing (host s)); [|congruence].
    unfold exec at 1. now rewrite cleanup_spec, Hrem. }
  pose proof (released_is_quiet s acts (reachable_Inv s Hr) Hacts) as Hq.
  rewrite E. cbn [step]. rewrite Hq. repeat split.
  cbn [step]. unfold exec. rewrite release_spec. reflexivity.
Qed.

Lemma removal_tears_down_witness :
  let s := run [Register 3%nat] Examples.box_manager in
  let records := [mkRecord 0 [4%nat; 1%nat]] in
  let acts := [Dispatch (TElement 1) Examples.click;
               Dispatch (TElement 1) Examples.leave] in
  step (Mutations records) s = step Release s /\
  run acts (step (Mutations records) s) = step Release s /\
  trace (host (run acts (step (Mutations records) s))) = trace (host s).
Proof.
  cbv zeta.
  apply (removal_tears_down
           (run [Register 3%nat] Examples.box_manager)
           [mkRecord 0 [4%nat; 1%nat]]
           [Dispatch (TElement 1) Examples.click; Dispatch (TElement 1) Examples.leave]).
  - apply run_reachable, box_manager_reachable.
  - discriminate.
  - reflexivity.
  - reflexivity.
Defined.

(** *** Immediate calls *)

(** C4: [call(evt)] returns [this], leaves no idle-fire timer pending
    (it clears the timer [timeoutHandle] names), and invokes the registered
    callbacks, each once, in the order of their registration, with
    [evt]. *)
Theorem call_fires_now s evt :
  reachable s ->
  fst (call evt s) = This /\
  this (exec (call evt) s) = this s /\
  tq_pending (state_timers (exec (call evt) s)) =
    filter (fun t => negb (t_handle t =? timeoutHandle (this s)))
           (tq_pending (state_timers s)) /\
  idle_fire_timers (exec (call evt) s) = [] /\
  trace (host (exec (call evt) s)) =
    trace (host s) ++ map (fun cb => (cb, evt)) (registeredCallbacks (this s)) /\
  NoDup (registeredCallbacks (this s)).
Proof.
  intros Hr. pose proof (reachable_Inv s Hr) as HI.
  unfold exec. rewrite call_spec. cbn [fst snd this host].
  repeat split; try (destruct_state s; reflexivity).
  - unfold idle_fire_timers, state_timers. cbn [host timers set_timers set_trace].
    rewrite idle_fire_clear. apply TimersFacts.filter_none. intros t Ht.
    destruct (inv_idle_handle s HI t Ht) as [-> _]. now rewrite Z.eqb_refl.
  - exact (inv_callbacks s HI).
Qed.

Lemma call_fires_now_witness :
  let s := run [Register 3%nat; Register 4%nat; Dispatch (TElement 1) Examples.click;
                Elapse 500; Expire 2] Examples.box_manager in
  idle_fire_timers s = [mkTimer 3 1500 (ThNotify None)] /\
  idle_fire_timers (exec (call (Some Examples.leave)) s) = [] /\
  trace (host (exec (call (Some Examples.leave)) s)) =
    [(3%nat, Some Examples.leave); (4%nat, Some Examples.leave)].
Proof.
  cbv zeta. split; [reflexivity|].
  pose proof (call_fires_now
                (run [Register 3%nat; Register 4%nat; Dispatch (TElement 1) Examples.click;
                      Elapse 500; Expire 2] Examples.box_manager)
                (Some Examples.leave)
                (run_reachable _ _ box_manager_reachable)) as (_ & _ & _ & H1 & H2 & _).
  split; [exact H1 | exact H2].
Defined.

(** *** The idle-fire timer *)

(** C6: a manager never has more than one idle-fire timer pending; the
    pulse, which is the one place where such a timer is scheduled, starts
    by cancelling, after which none is pending, and ends with exactly the
    new one. *)
Theorem one_idle_fire_timer s evt :
  reachable s ->
  (List.length (idle_fire_timers s) <= 1)%nat /\
  idle_fire_timers (exec cancelPending s) = [] /\
  List.length (idle_fire_timers (exec (pulse evt) s)) = 1%nat.
Proof.
  intros Hr. pose proof (reachable_Inv s Hr) as HI. split; [|split].
  - exact (inv_idle_one s HI).
  - unfold exec. rewrite cancelPending_spec. cbn [snd].
    unfold idle_fire_timers, state_timers, state_set_timers.
    replace (timers (host (on_host _ s)))
      with (clearTimeout (timeoutHandle (this s)) (timers (host s)))
      by (destruct_state s; reflexivity).
    rewrite idle_fire_clear. apply TimersFacts.filter_none. intros t Ht.
    destruct (inv_idle_handle s HI t Ht) as [-> _]. now rewrite Z.eqb_refl.
  - now rewrite idle_fire_pulse.
Qed.

Lemma one_idle_fire_timer_witness :
  let s := run [Dispatch (TElement 1) Examples.click; Elapse 500; Expire 2;
                Dispatch (TElement 1) Examples.click; Elapse 500; Expire 4]
               Examples.box_manager in
  idle_fire_timers s = [mkTimer 5 2000 (ThNotify None)] /\
  (List.length (idle_fire_timers s) <= 1)%nat /\
  idle_fire_timers (exec cancelPending s) = [] /\
  List.length (idle_fire_timers (exec (pulse (Some Examples.click)) s)) = 1%nat.
Proof.
  cbv zeta. split; [reflexivity|].
  apply (one_idle_fire_timer
           (run [Dispatch (TElement 1) Examples.click; Elapse 500; Expire 2;
                 Dispatch (TElement 1) Examples.click; Elapse 500; Expire 4]
                Examples.box_manager)
           (Some Examples.click)).
  apply run_reachable, box_manager_reachable.
Defined.

(** *** Registration *)

Lemma callbacks_register f s :
  registeredCallbacks (this (exec (register f) s)) =
  if existsb (Nat.eqb f) (registeredCallbacks (this s))
  then registeredCallbacks (this s)
  else registeredCallbacks (this s) ++ [f].
Proof.
  unfold exec. rewrite register_spec. cbn [snd].
  destruct (existsb _ _); [reflexivity | destruct_state s; reflexivity].
Qed.

Lemma filter_ne_comm (x y : Callback) (l : list Callback) :
  filter (fun g => negb (Nat.eqb g x)) (filter (fun g => negb (Nat.eqb g y)) l) =
  filter (fun g => negb (Nat.eqb g y)) (filter (fun g => negb (Nat.eqb g x)) l).
Proof.
  rewrite !filter_filter. apply filter_ext. intros g. apply andb_comm.
Qed.

Lemma filter_ne_idem (x : Callback) (l : list Callback) :
  filter (fun g => negb (Nat.eqb g x)) (filter (fun g => negb (Nat.eqb g x)) l) =
  filter (fun g => negb (Nat.eqb g x)) l.
Proof. rewrite filter_filter. apply filter_ext. intros g. apply andb_diag. Qed.

(** A later occurrence of [x] does not show once [x] is filtered out. *)
Lemma first_occurrences_drop x a r :
  filter (fun g => negb (Nat.eqb g x)) (first_occurrences (a ++ x :: r)) =
  filter (fun g => negb (Nat.eqb g x)) (first_occurrences (a ++ r)).
Proof.
  induction a as [|y a IH]; cbn [app first_occurrences filter].
  - rewrite Nat.eqb_refl. cbn [negb]. apply filter_ne_idem.
  - destruct (negb (Nat.eqb y x)); rewrite !(filter_ne_comm x y), IH; reflexivity.
Qed.

Lemma first_occurrences_again f l r :
  In f l -> first_occurrences (l ++ f :: r) = first_occurrences (l ++ r).
Proof.
  induction l as [|x l IH]; [easy|]. intros [->|Hin]; cbn [app first_occurrences].
  - f_equal. apply first_occurrences_drop.
  - now rewrite IH.
Qed.

Lemma first_occurrences_nodup l : NoDup l -> first_occurrences l = l.
Proof.
  induction 1 as [|x l Hx Hnd IH]; cbn [first_occurrences]; [reflexivity|].
  rewrite IH. f_equal. apply filter_all. intros y Hy.
  destruct (Nat.eqb_spec y x); [subst; contradiction | reflexivity].
Qed.

Lemma registers_first_occurrences fs s :
  NoDup (registeredCallbacks (this s)) ->
  registeredCallbacks (this (run (map Register fs) s)) =
  first_occurrences (registeredCallbacks (this s) ++ fs).
Proof.
  unfold run. revert s. induction fs as [|f fs IH]; intros s Hnd; cbn [map fold_left].
  - rewrite app_nil_r. symmetry. now apply first_occurrences_nodup.
  - cbn [step]. rewrite IH.
    + rewrite callbacks_register. destruct (existsb _ _) eqn:E.
      * apply existsb_exists in E as (x & Hx & Heq). apply Nat.eqb_eq in Heq. subst x.
        symmetry. now apply first_occurrences_again.
      * now rewrite <- app_assoc.
    + rewrite callbacks_register. destruct (existsb _ _) eqn:E; [exact Hnd|].
      apply NoDup_app; [exact Hnd | repeat constructor; easy |].
      intros x Hx [<-|[]].
      assert (existsb (Nat.eqb f) (registeredCallbacks (this s)) = true); [|congruence].
      apply existsb_exists. exists f. split; [exact Hx | apply Nat.eqb_refl].
Qed.

Lemma invoked_once (evt : option Event) (f : Callback) (l : list Callback) :
  NoDup l -> In f l ->
  List.length (filter (fun i : Invocation => Nat.eqb (fst i) f)
                      (map (fun cb => (cb, evt)) l)) = 1%nat.
Proof.
  induction 1 as [|x l Hx Hnd IH]; [easy|]. intros [->|Hin]; cbn.
  - rewrite Nat.eqb_refl. cbn. f_equal.
    rewrite TimersFacts.filter_none; [reflexivity|].
    intros i Hi. apply in_map_iff in Hi as (cb & <- & Hcb). cbn.
    destruct (Nat.eqb_spec cb f); [subst; contradiction | reflexivity].
  - destruct (Nat.eqb_spec x f); [subst; contradiction | auto].
Qed.

(** C5: whatever has happened to a manager, its callbacks are pairwise
    distinct; a sequence of [register] calls leaves the first occurrences,
    in order; [register] returns [this]; and a callback registered twice
    is invoked once when the callbacks fire. *)
Theorem register_idempotent s fs f evt :
  reachable s ->
  NoDup (registeredCallbacks (this s)) /\
  registeredCallbacks (this (run (map Register fs) s)) =
    first_occurrences (registeredCallbacks (this s) ++ fs) /\
  fst (register f s) = This /\
  let s2 := exec (register f) (exec (register f) s) in
  s2 = exec (register f) s /\
  trace (host (exec (notify evt) s2)) =
    trace (host s2) ++ map (fun cb => (cb, evt)) (registeredCallbacks (this s2)) /\
  List.length (filter (fun i : Invocation => Nat.eqb (fst i) f)
                      (map (fun cb => (cb, evt)) (registeredCallbacks (this s2)))) = 1%nat.
Proof.
  intros Hr. pose proof (reachable_Inv s Hr) as HI.
  pose proof (inv_callbacks s HI) as Hnd.
  split; [exact Hnd|]. split; [now apply registers_first_occurrences|].
  split; [now rewrite register_spec|]. cbv zeta.
  assert (Hin : In f (registeredCallbacks (this (exec (register f) s)))).
  { rewrite callbacks_register. destruct (existsb _ _) eqn:E.
    - apply existsb_exists in E as (x & Hx & Heq). apply Nat.eqb_eq in Heq. now subst.
    - apply in_or_app. right. now left. }
  assert (E2 : exec (register f) (exec (register f) s) = exec (register f) s).
  { unfold exec at 1. rewrite register_spec. cbn [snd].
    destruct (existsb _ _) eqn:E; [reflexivity|].
    assert (existsb (Nat.eqb f) (registeredCallbacks (this (exec (register f) s))) = true);
      [|congruence].
    apply existsb_exists. exists f. split; [exact Hin | apply Nat.eqb_refl]. }
  rewrite E2. split; [reflexivity|]. split.
  - unfold exec at 1. rewrite notify_spec. destruct (exec (register f) s) as [m h].
    destruct h. reflexivity.
  - apply invoked_once; [|exact Hin].
    exact (inv_callbacks _ (inv_register f s HI)).
Qed.

Lemma register_idempotent_witness :
  registeredCallbacks
    (this (run (map Register [3; 4; 3; 5; 4]%nat) Examples.box_manager))
  = [3; 4; 5]%nat /\
  trace (host (exec (notify None)
                (exec (register 3%nat) (exec (register 3%nat) Examples.box_manager))))
  = [(3%nat, None)].
Proof.
  pose proof (register_idempotent Examples.box_manager [3; 4; 3; 5; 4]%nat 3%nat None
                box_manager_reachable) as (_ & H1 & _ & _ & H2 & _).
  split; [exact H1 | exact H2].
Defined.

(** *** What the callbacks receive *)

Lemma released_inv m sub :
  released m sub = true ->
  (exists e evt, element m = Some e /\ In evt (eventList m) /\
                 sub = mkSub (TElement (el_ref e)) (event_name evt) HListener) \/
  (notifyOnFocusLoss m = true /\ sub = mkSub TDocument "focus" HFocusHandler) \/
  (exists e, element m = Some e /\ notifyOnMouseLeave m = true /\
             sub = mkSub (TElement (el_ref e)) "mouseleave" HNotify).
Proof.
  unfold released, with_element. intros H.
  apply orb_true_iff in H as [H|H]; [apply orb_true_iff in H as [H|H]|].
  - destruct (element m) as [e|]; [|discriminate].
    apply existsb_exists in H as (evt & Hin & Heq). apply sub_eqb_eq in Heq.
    left. eauto.
  - apply andb_true_iff in H as [Hf Heq]. apply sub_eqb_eq in Heq. right. left. auto.
  - apply andb_true_iff in H as [Hf Heq]. destruct (element m) as [e|]; [|discriminate].
    apply sub_eqb_eq in Heq. right. right. eauto.
Qed.

Lemma event_name_not_mouseleave evt : String.eqb (event_name evt) "mouseleave" = false.
Proof. destruct evt; reflexivity. Qed.

Lemma mouseleave_listeners s e :
  Inv s -> element (this s) = Some e ->
  In (mkSub (TElement (el_ref e)) "mouseleave" HNotify) (listeners (host s)) ->
  filter (subscribed (TElement (el_ref e)) "mouseleave") (listeners (host s)) =
  [mkSub (TElement (el_ref e)) "mouseleave" HNotify].
Proof.
  intros HI He Hin. apply filter_single; auto.
  - exact (inv_listeners_nodup s HI).
  - unfold subscribed. cbn. now rewrite Nat.eqb_refl.
  - intros y Hy Hs. apply (inv_listeners s HI) in Hy.
    apply released_inv in Hy as [(e' & evt & _ & _ & ->)|[[_ ->]|(e' & He' & _ & ->)]].
    + unfold subscribed in Hs. cbn [sub_type] in Hs.
      rewrite event_name_not_mouseleave, andb_false_r in Hs. discriminate.
    + discriminate.
    + congruence.
Qed.

Lemma focus_listeners s :
  Inv s ->
  In (mkSub TDocument "focus" HFocusHandler) (listeners (host s)) ->
  filter (subscribed TDocument "focus") (listeners (host s)) =
  [mkSub TDocument "focus" HFocusHandler].
Proof.
  intros HI Hin. apply filter_single; auto.
  - exact (inv_listeners_nodup s HI).
  - intros y Hy Hs. apply (inv_listeners s HI) in Hy.
    apply released_inv in Hy as [(e' & evt & _ & _ & ->)|[[_ ->]|(e' & He' & _ & ->)]];
      [discriminate | reflexivity | discriminate].
Qed.

(** C8: the idle path passes no event, whatever pulse scheduled it; the
    mouse-leave listener passes the leave event itself; the focus handler,
    for a focus target outside the element, passes none. *)
Theorem callbacks_event_argument s e :
  reachable s -> element (this s) = Some e ->
  (forall evt, exists h due,
      idle_fire_timers (exec (pulse evt) s) = [mkTimer h due (ThNotify None)]) /\
  (forall h t,
      find_timer h (state_timers s) = Some t -> is_idle_fire t = true ->
      t_due t <= tq_clock (state_timers s) ->
      trace (host (step (Expire h) s)) =
        trace (host s) ++ map (fun cb => (cb, None)) (registeredCallbacks (this s))) /\
  (forall evt,
      In (mkSub (TElement (el_ref e)) "mouseleave" HNotify) (listeners (host s)) ->
      ev_type evt = "mouseleave"%string ->
      trace (host (step (Dispatch (TElement (el_ref e)) evt) s)) =
        trace (host s) ++ map (fun cb => (cb, Some evt)) (registeredCallbacks (this s))) /\
  (forall evt,
      In (mkSub TDocument "focus" HFocusHandler) (listeners (host s)) ->
      ev_type evt = "focus"%string -> contains e (ev_target evt) = false ->
      trace (host (step (Dispatch TDocument evt) s)) =
        trace (host s) ++ map (fun cb => (cb, None)) (registeredCallbacks (this s))).
Proof.
  intros Hr He. pose proof (reachable_Inv s Hr) as HI. repeat split.
  - intros evt. rewrite (idle_fire_pulse evt s HI). eauto.
  - intros h t Hf Hi Hd. cbn [step]. unfold expire. rewrite Hf.
    destruct (Z.leb_spec (t_due t) (tq_clock (state_timers s))); [|lia].
    assert (Hin : In t (idle_fire_timers s)).
    { apply filter_In. split; [|exact Hi].
      apply find_some in Hf. exact (proj1 Hf). }
    destruct (inv_idle_handle s HI t Hin) as [_ ->].
    cbn [run_thunk]. rewrite exec_then_ret. unfold exec. rewrite notify_spec.
    destruct_state s. reflexivity.
  - intros evt Hin Ht. cbn [step]. unfold exec, dispatch.
    rewrite Ht, (mouseleave_listeners s e HI He Hin).
    cbn [forEach sub_handler handle]. unfold bind. rewrite notify_spec.
    destruct_state s. reflexivity.
  - intros evt Hin Ht Hc. cbn [step]. unfold exec, dispatch.
    rewrite Ht, (focus_listeners s HI Hin).
    cbn [forEach sub_handler handle]. unfold bind. rewrite focusHandler_spec.
    unfold with_element. rewrite He, Hc. unfold exec. rewrite call_spec.
    destruct_state s. reflexivity.
Qed.

Lemma callbacks_event_argument_witness :
  let s := run [Register 3%nat; Dispatch (TElement 1) Examples.click;
                Elapse 500; Expire 2; Elapse 1000] Examples.box_manager_focus in
  trace (host (step (Expire 3) s)) = [(3%nat, None)] /\
  trace (host (step (Dispatch (TElement 1) Examples.leave) s))
    = [(3%nat, Some Examples.leave)] /\
  trace (host (step (Dispatch TDocument Examples.focus_out) s)) = [(3%nat, None)].
Proof.
  cbv zeta.
  pose proof (callbacks_event_argument
                (run [Register 3%nat; Dispatch (TElement 1) Examples.click;
                      Elapse 500; Expire 2; Elapse 1000] Examples.box_manager_focus)
                Examples.box
                (run_reachable _ _ box_manager_focus_reachable) eq_refl)
    as (_ & H1 & H2 & H3).
  split; [|split].
  - exact (H1 3 (mkTimer 3 1500 (ThNotify None)) eq_refl eq_refl ltac:(vm_compute; discriminate)).
  - apply (H2 Examples.leave); [vm_compute; auto 10 | reflexivity].
  - apply (H3 Examples.focus_out); [vm_compute; auto 10 | reflexivity | reflexivity].
Defined.

(** *** Who changes the callbacks *)

(** *** Who changes the callbacks *)

Section Frame.
Variable l : list Callback.
Local Abbreviation kept := (callbacks_are l).

Lemma kept_notify evt s : kept s -> kept (exec (notify evt) s).
Proof. unfold callbacks_are, exec. rewrite notify_spec. now destruct_state s. Qed.

Lemma kept_call evt s : kept s -> kept (exec (call evt) s).
Proof. unfold callbacks_are, exec. rewrite call_spec. now destruct_state s. Qed.

Lemma kept_cancelPending s : kept s -> kept (exec cancelPending s).
Proof. unfold callbacks_are, exec. rewrite cancelPending_spec. now destruct_state s. Qed.

Lemma kept_release s : kept s -> kept (exec release s).
Proof. unfold callbacks_are, exec. rewrite release_spec. now destruct_state s. Qed.

Lemma kept_pulse evt s : kept s -> kept (exec (pulse evt) s).
Proof. unfold callbacks_are, exec. rewrite pulse_spec. now destruct_state s. Qed.

Lemma kept_listener args s : kept s -> kept (exec (listener args) s).
Proof. unfold callbacks_are, exec. rewrite listener_spec. now destruct_state s. Qed.

Lemma kept_focusHandler evt s : kept s -> kept (exec (focusHandler evt) s).
Proof.
  intros H. unfold exec. rewrite focusHandler_spec. cbn [snd].
  destruct (with_element _ _ _); [exact H | now apply kept_call].
Qed.

Lemma kept_dispatch t evt s : kept s -> kept (exec (dispatch t evt) s).
Proof.
  intros H. unfold dispatch.
  change (kept (exec (forEach (filter (subscribed t (ev_type evt)) (listeners (host s)))
                              (fun sub => handle (sub_handler sub) evt)) s)).
  apply forEach_preserves; [|exact H]. intros sub s' H'.
  destruct (sub_handler sub); cbn [handle]; rewrite exec_then_ret.
  - now apply kept_listener.
  - now apply kept_focusHandler.
  - now apply kept_notify.
Qed.

Lemma kept_cleanup records s : kept s -> kept (exec (cleanup records) s).
Proof.
  intros H. unfold exec. rewrite cleanup_spec. cbn [snd].
  destruct (removes_element records s); [now apply kept_release | exact H].
Qed.

Lemma kept_run_thunk th s : kept s -> kept (exec (run_thunk th) s).
Proof.
  intros H. destruct th; cbn [run_thunk].
  - exact H.
  - rewrite exec_then_ret. now apply kept_notify.
  - now apply kept_pulse.
Qed.
End Frame.

(** C10: [register] apart, no method and no move of the host changes the
    registered callbacks; so [call] after [release] invokes all of them. *)
Theorem only_register_changes_callbacks a s evt :
  registeredCallbacks (this (step a s)) =
    match a with
    | Register f =>
        if existsb (Nat.eqb f) (registeredCallbacks (this s))
        then registeredCallbacks (this s)
        else registeredCallbacks (this s) ++ [f]
    | _ => registeredCallbacks (this s)
    end /\
  registeredCallbacks (this (exec release s)) = registeredCallbacks (this s) /\
  trace (host (exec (call evt) (exec release s))) =
    trace (host s) ++ map (fun cb => (cb, evt)) (registeredCallbacks (this s)).
Proof.
  split; [|split].
  - destruct a; cbn [step].
    + apply callbacks_register.
    + now apply kept_call.
    + now apply kept_cancelPending.
    + now apply kept_release.
    + now apply kept_dispatch.
    + destruct (observing (host s)); [now apply kept_cleanup | reflexivity].
    + destruct (expire h (state_timers s)) as [[th q]|]; [|reflexivity].
      apply kept_run_thunk. now destruct_state s.
    + now destruct_state s.
  - now apply kept_release.
  - unfold exec. rewrite call_spec, release_spec. destruct_state s. reflexivity.
Qed.

(** *** Construction *)

Lemma make_selector_selector_only sel :
  make_selector (Some sel) None = if truthy sel then "#undefined"%string else EmptyString.
Proof. unfold make_selector. cbn. now rewrite orb_false_r. Qed.

(** With an element handle the document is not asked: the handle is the
    target. *)
Lemma resolve_element_handle doc sel e : resolve_element doc sel (Some e) = inr e.
Proof. reflexivity. Qed.

Lemma truthy_hash_id el : truthy (hash_id el) = true.
Proof. reflexivity. Qed.

(** The constructor throws its "No selector or element id provided."
    exactly when the selector and the element's id are both falsy. *)
Lemma constructor_configuration_error p h0 :
  snd (constructor p h0) = inl ConfigurationError <->
  truthy_opt (p_selector p) = false /\
  truthy_opt (option_map el_id (p_element p)) = false.
Proof.
  unfold constructor. cbn [setTimeout]. cbv zeta. unfold make_selector.
  destruct (truthy_opt (p_selector p) || truthy_opt (option_map el_id (p_element p))) eqn:E.
  - rewrite truthy_hash_id. cbn [negb]. split.
    + destruct (resolve_element _ _ _) as [err|e] eqn:R.
      * destruct (p_element p); cbn in R; [discriminate|].
        destruct (querySelector _ _); cbn in R; [discriminate|].
        injection R as <-. cbn. discriminate.
      * destruct (el_parentNode e); cbn; discriminate.
    + apply orb_true_iff in E. intros [H1 H2]. rewrite H1, H2 in E. now destruct E.
  - cbn. apply orb_false_iff in E. tauto.
Qed.

(** The two errors the constructor throws itself come before anything is
    subscribed. *)
Lemma constructor_own_errors_subscribe_nothing p h0 message :
  snd (constructor p h0) = inl (Error message) ->
  listeners (fst (constructor p h0)) = listeners h0 /\
  observing (fst (constructor p h0)) = observing h0.
Proof.
  unfold constructor. cbn [setTimeout]. cbv zeta.
  destruct (negb (truthy _)); [now destruct h0|].
  destruct (resolve_element _ _ _) as [err|e]; [now destruct h0|].
  destruct (el_parentNode e); cbn; discriminate.
Qed.

(** C1 fails on the code: with a selector and no element, the string that
    is queried is [#undefined], whatever the selector.  In a document where
    [.foo] selects an element, the construction from [.foo] throws; in a
    document where [.bar] selects nothing, the construction from [.bar]
    succeeds, with the element of id [undefined] as its target. *)
Theorem selector_only_queries_hash_undefined :
  (forall sel, make_selector (Some sel) None =
               if truthy sel then "#undefined"%string else EmptyString) /\
  (querySelector Examples.doc ".foo" = Some Examples.foo /\
   snd (constructor (Examples.defaults (Some ".foo"%string) None)
                    (fresh_host Examples.doc)) = inl ResolutionError) /\
  (querySelector Examples.doc_undefined ".bar" = None /\
   exists m, snd (constructor (Examples.defaults (Some ".bar"%string) None)
                              (fresh_host Examples.doc_undefined)) = inr m /\
             element m = Some Examples.undefined_element).
Proof.
  split; [apply make_selector_selector_only|]. split; [split; reflexivity|].
  split; [reflexivity|]. eexists. split; reflexivity.
Qed.

(** C9 fails on the code: for an element without a parent node,
    [observe] throws after the listeners have been subscribed, and the
    error leaves them subscribed. *)
Theorem detached_element_leaves_subscriptions :
  let r := constructor (mkParams None (Some Examples.detached) None None (Some true) None None)
                       (fresh_host Examples.doc) in
  (exists message, snd r = inl (TypeError message)) /\
  listeners (fst r) =
    [mkSub (TElement 1) "mousemove" HListener;
     mkSub (TElement 1) "keydown" HListener;
     mkSub (TElement 1) "click" HListener;
     mkSub (TElement 1) "change" HListener;
     mkSub TDocument "focus" HFocusHandler;
     mkSub (TElement 1) "mouseleave" HNotify] /\
  observing (fst r) = None.
Proof.
  cbv zeta. split; [eexists; reflexivity|]. split; reflexivity.
Qed.

End ManagerFacts.

(** ** The form helper *)

Module FormHelperFacts.
Import FormHelper.

Section HelperFacts.
Variable toString : FormData -> string.
Variable selector : string.
Variable f : list FormData -> FormData -> option JsError.

Local Abbreviation handler := (FormHelper.handler toString selector f).
Local Abbreviation calls := (FormHelper.calls toString selector f).
Local Abbreviation serials := (FormHelper.serials toString).

(** The two ways a call can go: the closure's [lastState] and the calls of
    [f] stay as they were, or [f] is called with the entries of a valid
    form whose serialization differs from [lastState], which it replaces. *)
Lemma handler_cases doc s :
  (lastState (fst (handler doc s)) = lastState s /\
   delivered (fst (handler doc s)) = delivered s) \/
  (exists controls fd,
      getElementById doc selector = Some (Form controls fd) /\
      forallb (fun valid => valid) controls = true /\
      toString fd <> lastState s /\
      lastState (fst (handler doc s)) = toString fd /\
      delivered (fst (handler doc s)) = delivered s ++ [fd]).
Proof.
  unfold FormHelper.handler.
  destruct (getElementById doc selector) as [[controls fd|[|]]|] eqn:G; cbn; auto.
  destruct (forallb _ controls) eqn:V; cbn; auto.
  destruct (String.eqb_spec (toString fd) (lastState s)) as [E|E]; cbn; auto.
  right. exists controls, fd. destruct (f _ fd); cbn; auto 10.
Qed.

Lemma last_nonempty (d d' x : string) (l : list string) :
  last (x :: l) d = last (x :: l) d'.
Proof.
  revert x. induction l as [|y l IH]; intros x; [reflexivity|].
  change (last (y :: l) d = last (y :: l) d'). apply IH.
Qed.

Lemma no_repeat_snoc prev l x :
  no_repeat prev l -> x <> last l prev -> no_repeat prev (l ++ [x]).
Proof.
  revert prev. induction l as [|y l IH]; intros prev H Hx; cbn in *; [auto|].
  destruct H as [Hy Hl]. split; [exact Hy|]. apply IH; [exact Hl|].
  destruct l as [|z l]; [exact Hx|]. now rewrite (last_nonempty y prev).
Qed.

Lemma calls_snoc docs doc s :
  calls (docs ++ [doc]) s = fst (handler doc (calls docs s)).
Proof. unfold FormHelper.calls. now rewrite fold_left_app. Qed.

(** X1: however the form changes between the calls, [lastState] is the
    serialization [f] was last called with (empty before the first call),
    and [f] is never called with the serialization it was called with just
    before, nor first with the empty one. *)
Theorem deliveries_never_repeat docs :
  let s := calls docs (formHelper) in
  lastState s = last (serials s) EmptyString /\
  no_repeat EmptyString (serials s).
Proof.
  cbv zeta. induction docs as [|doc docs IH] using rev_ind; [cbn; auto|].
  rewrite calls_snoc. destruct IH as [IH1 IH2].
  destruct (handler_cases doc (calls docs formHelper))
    as [[H1 H2]|(controls & fd & _ & _ & Hne & H1 & H2)];
    unfold FormHelper.serials in *; rewrite H1, H2.
  - auto.
  - rewrite map_app. cbn [map]. rewrite last_last. split; [reflexivity|].
    apply no_repeat_snoc; [exact IH2|]. cbn. now rewrite <- IH1.
Qed.

(** X2: a second call on a document that has not changed never calls [f],
    also when the first call of [f] failed. *)
Theorem unchanged_form_is_skipped doc s :
  delivered (fst (handler doc (fst (handler doc s)))) = delivered (fst (handler doc s)).
Proof.
  unfold FormHelper.handler.
  destruct (getElementById doc selector) as [[controls fd|[|]]|] eqn:G;
    cbn [fst has_elements negb newFormData]; rewrite ?G;
    cbn [fst has_elements negb newFormData]; try reflexivity.
  destruct (forallb _ controls) eqn:V; [|reflexivity].
  destruct (String.eqb (toString fd) (lastState s)) eqn:E; cbn [negb fst log lastState].
  - rewrite E. reflexivity.
  - destruct (f _ fd); cbn [fst log lastState]; rewrite String.eqb_refl; reflexivity.
Qed.

(** X3: a rejected call either found no form, and then left the closure
    as it was, or is the failure of [f] itself, after [lastState] was set
    to the form's serialization. *)
Theorem rejections doc s s' err :
  FormHelper.handler toString selector f doc s = (s', inl err) ->
  (s' = s /\
   forall controls fd, getElementById doc selector <> Some (Form controls fd)) \/
  (exists controls fd,
      getElementById doc selector = Some (Form controls fd) /\
      f (delivered s) fd = Some err /\
      lastState s' = toString fd /\
      delivered s' = delivered s ++ [fd]).
Proof.
  unfold FormHelper.handler.
  destruct (getElementById doc selector) as [[controls fd|[|]]|] eqn:G; cbn.
  - destruct (forallb _ controls); cbn; [|discriminate].
    destruct (String.eqb _ _); cbn; [discriminate|].
    destruct (f _ fd) as [e|] eqn:F; [|discriminate].
    intros [= <- <-]. right. exists controls, fd. auto.
  - intros [= <- _]. left. split; [reflexivity | discriminate].
  - intros [= <- _]. left. split; [reflexivity | discriminate].
  - intros [= <- _]. left. split; [reflexivity | discriminate].
Qed.
End HelperFacts.

Lemma rejections_witness :
  handler plain "signup" offline signup formHelper
    = (mkState "mail=a@b" [mail] [], inl (Error "offline")) /\
  lastState (mkState "mail=a@b" [mail] []) = plain mail.
Proof.
  split; [reflexivity|].
  destruct (rejections plain "signup" offline signup formHelper
              (mkState "mail=a@b" [mail] []) (Error "offline") eq_refl)
    as [[_ H]|(controls & fd & G & _ & H & _)].
  - exfalso. exact (H _ _ eq_refl).
  - injection G as _ <-. exact H.
Defined.

End FormHelperFacts.

(** ** Bursts of calls *)

Module BurstFacts.
Import Timers Debounce DebounceFacts Burst.

Section BurstProofs.
Context {A : Type}.
Variables (n : Z) (now : bool).
Implicit Types (w : World A) (acts moves : list (Action A)).

Lemma run_app acts moves :
  run n now (acts ++ moves) = fold_left (fun w a => step n now a w) moves (run n now acts).
Proof. unfold run. now rewrite fold_left_app. Qed.

(** After a call the one pending invocation is the one it scheduled. *)
Lemma pending_after_call acts args :
  tq_pending (queue (run n now (acts ++ [Call args]))) =
    [mkTimer (tq_next (queue (run n now acts)))
             (tq_clock (queue (run n now acts)) + Timers.timeout n) args] /\
  timer (run n now (acts ++ [Call args])) = tq_next (queue (run n now acts)) /\
  tq_clock (queue (run n now (acts ++ [Call args]))) = tq_clock (queue (run n now acts)).
Proof.
  rewrite run_snoc. destruct (timer_inv_run n now acts) as [Hn Hf Hc Hp].
  cbn. destruct ((timer (run n now acts) =? -1) && now); cbn;
    (rewrite TimersFacts.filter_none; [auto|]);
    intros t Ht; rewrite (Hp t Ht), Z.eqb_refl; reflexivity.
Qed.

Lemma waited_nonneg moves : 0 <= waited moves.
Proof. induction moves as [|[a|h|d] moves IH]; cbn; lia. Qed.

(** While every pending invocation is due later than the moves reach,
    the moves invoke nothing. *)
Lemma quiet_moves moves w due :
  no_call moves = true ->
  (forall t, In t (tq_pending (queue w)) -> t_due t = due) ->
  tq_clock (queue w) + waited moves < due ->
  calls (fold_left (fun w' a => step n now a w') moves w) = calls w.
Proof.
  revert w. induction moves as [|a moves IH]; intros w Hc Hp Hd; [reflexivity|].
  unfold no_call in Hc. cbn in Hc. apply andb_true_iff in Hc as [Ha Hc].
  pose proof (waited_nonneg moves) as Hw.
  destruct a as [args|h|d]; [discriminate| |]; cbn [fold_left step waited] in *.
  - destruct (expire h (queue w)) as [[args q]|] eqn:E.
    + apply TimersFacts.expire_some in E as [_ (t & Hin & _ & _ & Hdue)].
      rewrite (Hp t Hin) in Hdue. lia.
    + now apply IH.
  - rewrite IH; [reflexivity | exact Hc | exact Hp | cbn; lia].
Qed.

(** The delay the host takes is the number given, for the numbers a
    32-bit signed integer holds; it is never negative, and never more
    than the number given unless that is below -2^31. *)
Lemma timeout_in_range (k : Z) : 0 <= k < 2147483648 -> Timers.timeout k = k.
Proof.
  intros H. unfold Timers.timeout, to_long. rewrite Z.mod_small by lia. lia.
Qed.

Lemma timeout_nonneg (k : Z) : 0 <= Timers.timeout k.
Proof. unfold Timers.timeout. lia. Qed.

Lemma timeout_le (k d : Z) :
  -2147483648 <= k -> k <= d -> Timers.timeout k <= Z.max 0 d.
Proof.
  intros Hk Hd. unfold Timers.timeout, to_long.
  destruct (Z.lt_ge_cases k 2147483648) as [Hlt|Hge].
  - rewrite Z.mod_small by lia. lia.
  - pose proof (Z.mod_pos_bound (k + 2147483648) 4294967296 ltac:(lia)). lia.
Qed.

(** X4: fn is not invoked before the delay has passed: after a call
    [debounced(...)] of a wrapper made with the delay [n], moves of the
    clock and of the timers that let less than the delay the host takes
    for [n] pass invoke nothing; that delay is [n] itself when
    [0 <= n < 2^31]. *)
Theorem no_invocation_before_delay acts args moves :
  no_call moves = true -> waited moves < Timers.timeout n ->
  calls (run n now (acts ++ Call args :: moves)) = calls (run n now (acts ++ [Call args])).
Proof.
  intros Hc Hw.
  replace (acts ++ Call args :: moves) with ((acts ++ [Call args]) ++ moves)
    by now rewrite <- app_assoc.
  rewrite run_app. destruct (pending_after_call acts args) as (Hp & _ & Hk).
  apply (quiet_moves moves _ (tq_clock (queue (run n now acts)) + Timers.timeout n)); auto.
  - intros t. rewrite Hp. intros [<-|[]]. reflexivity.
  - rewrite Hk. lia.
Qed.

(** X5: once the delay has passed after a call, the expiry of the timer
    the call returned invokes fn once, with the arguments of that call,
    and leaves nothing pending.  The delay is the one the host takes for
    [n]: for [-2^31 <= n] it has passed when [n <= d]. *)
Theorem trailing_invocation acts args d :
  Timers.timeout n <= Z.max 0 d ->
  let w1 := run n now (acts ++ [Call args]) in
  let w2 := run n now (acts ++ [Call args; Elapse d; Expire (timer w1)]) in
  calls w2 = calls w1 ++ [args] /\ idle w2.
Proof.
  intros Hd. cbv zeta.
  replace (acts ++ [Call args; Elapse d; Expire (timer (run n now (acts ++ [Call args])))])
    with ((acts ++ [Call args]) ++
          [Elapse d; Expire (timer (run n now (acts ++ [Call args])))])
    by now rewrite <- app_assoc.
  rewrite run_app. destruct (pending_after_call acts args) as (Hp & Ht & Hk).
  set (w1 := run n now (acts ++ [Call args])) in *.
  cbn [fold_left step]. unfold expire, find_timer. cbn [set_queue queue elapse tq_pending].
  rewrite Hp, Ht. cbn [find t_handle]. rewrite Z.eqb_refl. cbn [t_due t_thunk].
  change (tq_clock (elapse d (queue w1))) with (tq_clock (queue w1) + Z.max 0 d).
  rewrite Hk.
  destruct (Z.leb_spec (tq_clock (queue (run n now acts)) + Timers.timeout n)
                       (tq_clock (queue (run n now acts)) + Z.max 0 d)); [|lia].
  unfold idle. cbn. rewrite Hp. cbn. rewrite Z.eqb_refl. cbn. auto.
Qed.

(** Along a run: fn was invoked, or is to be, at most once for each call,
    once more for the leading invocation; and only with arguments the
    wrapper was called with. *)
Lemma bounded_run acts :
  let w := run n now acts in
  (List.length (calls w) + List.length (tq_pending (queue w))
   <= call_count acts + (if now && negb (no_call acts) then 1 else 0))%nat /\
  (forall a, In a (calls w) \/ In a (pending_args w) -> In (Call a) acts).
Proof.
  cbv zeta. induction acts as [|a acts [IH1 IH2]] using rev_ind.
  - split; [cbn; lia|]. cbn. tauto.
  - pose proof (timer_inv_run n now acts) as [Hn Hf Hc Hp].
    unfold call_count in *. rewrite filter_app, length_app, no_call_snoc.
    destruct a as [args|h|d].
    + destruct (pending_after_call acts args) as (Hpend & _ & _).
      unfold pending_args. rewrite Hpend. rewrite run_snoc. cbn [step is_call filter negb].
      rewrite andb_false_r, andb_true_r. cbn [negb List.length].
      split.
      * cbn. destruct (no_call acts) eqn:E.
        -- destruct (Hf eq_refl) as [-> Hnil]. rewrite Hnil in IH1. cbn in *.
           destruct now; cbn in *; rewrite ?length_app; cbn; lia.
        -- specialize (Hc eq_refl).
           destruct (Z.eqb_spec (timer (run n now acts)) (-1)); [lia|]. cbn in *.
           destruct now; cbn in *; lia.
      * intros a Ha. apply in_or_app. cbn in Ha.
        destruct ((timer (run n now acts) =? -1) && now); cbn in Ha.
        -- destruct Ha as [Ha|[<-|[]]]; [|right; now left].
           apply in_app_or in Ha as [Ha|[<-|[]]]; [left; auto | right; now left].
        -- destruct Ha as [Ha|[<-|[]]]; [left; auto | right; now left].
    + rewrite run_snoc. cbn [step is_call filter negb List.length].
      rewrite andb_true_r, Nat.add_0_r.
      destruct (expire h (queue (run n now acts))) as [[args q]|] eqn:E.
      * apply TimersFacts.expire_some in E as [-> (t & Hin & Hh & Hth & _)].
        assert (Hnil : tq_pending (clearTimeout h (queue (run n now acts))) = []).
        { cbn. apply TimersFacts.filter_none. intros t' Ht'.
          rewrite (Hp t' Ht'), <- (Hp t Hin), Hh, Z.eqb_refl. reflexivity. }
        split.
        -- cbn [fn set_queue calls queue]. rewrite Hnil, length_app. cbn.
           destruct (tq_pending (queue (run n now acts))); [destruct Hin|].
           cbn in IH1. lia.
        -- intros a Ha. apply in_or_app. left. apply IH2.
           unfold pending_args in *. cbn [fn set_queue calls queue] in Ha.
           rewrite Hnil in Ha. destruct Ha as [Ha|[]].
           apply in_app_or in Ha as [Ha|[<-|[]]]; [now left|].
           right. subst args. now apply in_map.
      * split; [exact IH1|]. intros a Ha. apply in_or_app. left. auto.
    + rewrite run_snoc. cbn [step is_call filter negb List.length].
      rewrite andb_true_r, Nat.add_0_r. split; [exact IH1|].
      intros a Ha. apply in_or_app. left. auto.
Qed.

(** X6: the wrapper never invokes fn more often than it was called, the
    one leading invocation apart, and never with arguments it was not
    called with. *)
Theorem invocations_bounded_by_calls acts :
  (List.length (calls (run n now acts)) <= call_count acts + (if now then 1 else 0))%nat /\
  (forall a, In a (calls (run n now acts)) -> In (Call a) acts).
Proof.
  destruct (bounded_run acts) as [H1 H2]. split; [|auto].
  destruct now; cbn in *; [destruct (no_call acts); cbn in H1|]; lia.
Qed.
End BurstProofs.

Lemma no_invocation_before_delay_witness :
  calls (run 100 false [Call 1%nat; Call 2%nat; Elapse 60; Expire 2; Elapse 39; Expire 2])
  = calls (run 100 false [Call 1%nat; Call 2%nat]).
Proof.
  apply (no_invocation_before_delay 100 false [Call 1%nat] 2%nat
           [Elapse 60; Expire 2; Elapse 39; Expire 2]); [reflexivity | reflexivity].
Defined.

(** At the edge of the range: for the delay 2^31 the host takes 0, and
    the timer may expire at once. *)
Lemma delay_of_two_to_the_31_is_zero :
  Timers.timeout 2147483648 = 0 /\
  calls (run 2147483648 false [Call 1%nat; Expire 1]) = [1%nat].
Proof. split; reflexivity. Qed.

Lemma trailing_invocation_witness :
  calls (run 100 true [Call 1%nat; Call 2%nat; Elapse 100; Expire 2]) = [1; 2]%nat /\
  idle (run 100 true [Call 1%nat; Call 2%nat; Elapse 100; Expire 2]).
Proof.
  apply (trailing_invocation 100 true [Call 1%nat] 2%nat 100). vm_compute. discriminate.
Defined.

End BurstFacts.

(** ** The manager's timers and events together *)

Module FlowFacts.
Import Timers Manager ManagerFacts Handles.

#[local] Arguments sub_eqb : simpl never.
#[local] Arguments event_name : simpl never.

(** *** The handles stay fresh *)

Lemma nodup_handles_filter (p : Timer Thunk -> bool) (l : list (Timer Thunk)) :
  NoDup (map t_handle l) -> NoDup (map t_handle (filter p l)).
Proof.
  induction l as [|t l IH]; cbn; [auto|]. intros H. inversion H as [|? ? Hn Hd]; subst.
  destruct (p t); cbn; [|auto]. constructor; [|auto].
  intros Hin. apply Hn. apply in_map_iff in Hin as (t' & E & Ht').
  apply filter_In in Ht' as [Ht' _]. rewrite <- E. now apply in_map.
Qed.

Lemma nodup_handles_snoc (l : list (Timer Thunk)) (t : Timer Thunk) :
  NoDup (map t_handle l) -> (forall t', In t' l -> t_handle t' < t_handle t) ->
  NoDup (map t_handle (l ++ [t])).
Proof.
  intros Hn Hlt. rewrite map_app. apply NoDup_app; [exact Hn | repeat constructor; easy |].
  intros h Hin [<-|[]]. apply in_map_iff in Hin as (t' & E & Ht').
  specialize (Hlt t' Ht'). lia.
Qed.

(** A state with the same handles in the fields and some of the timers. *)
Lemma Fresh_fewer s s' (p : Timer Thunk -> bool) :
  Fresh s ->
  timeoutHandle (this s') = timeoutHandle (this s) ->
  debounced_timer (this s') = debounced_timer (this s) ->
  listener_timer (this s') = listener_timer (this s) ->
  tq_next (state_timers s') = tq_next (state_timers s) ->
  tq_pending (state_timers s') = filter p (tq_pending (state_timers s)) ->
  Fresh s'.
Proof.
  intros [Hp Ht Hd Hl Hne Hpu Hnd] E1 E2 E3 E4 E5.
  split; unfold pulse_timers; rewrite ?E1, ?E2, ?E3, ?E4, ?E5; auto.
  - intros t Hin. apply filter_In in Hin as [Hin _]. auto.
  - intros t Hin. apply filter_In in Hin as [Hin Hpl].
    apply filter_In in Hin as [Hin _]. apply Hpu. now apply filter_In.
  - now apply nodup_handles_filter.
Qed.

Lemma filter_true {X : Type} (l : list X) : filter (fun _ => true) l = l.
Proof. apply filter_all. auto. Qed.

Lemma fresh_notify evt s : Fresh s -> Fresh (exec (notify evt) s).
Proof.
  intros H. unfold exec. rewrite notify_spec.
  apply (Fresh_fewer s _ (fun _ => true)); auto; destruct_state s; cbn;
    try reflexivity. now rewrite filter_true.
Qed.

Lemma fresh_clear h s :
  Fresh s -> Fresh (state_set_timers (clearTimeout h (state_timers s)) s).
Proof.
  intros H. apply (Fresh_fewer s _ (fun t => negb (t_handle t =? h))); auto;
    destruct_state s; reflexivity.
Qed.

Lemma fresh_elapse d s :
  Fresh s -> Fresh (state_set_timers (elapse d (state_timers s)) s).
Proof.
  intros H. apply (Fresh_fewer s _ (fun _ => true)); auto; destruct_state s; cbn;
    try reflexivity. now rewrite filter_true.
Qed.

Lemma fresh_release s : Fresh s -> Fresh (exec release s).
Proof.
  intros H. unfold exec. rewrite release_spec.
  apply (Fresh_fewer s _ (fun _ => true)); auto; destruct_state s; cbn;
    try reflexivity. now rewrite filter_true.
Qed.

Lemma fresh_register f s : Fresh s -> Fresh (exec (register f) s).
Proof.
  intros H. unfold exec. rewrite register_spec. cbn [snd].
  destruct (existsb _ _); [exact H|].
  apply (Fresh_fewer s _ (fun _ => true)); auto; destruct_state s; cbn;
    try reflexivity. now rewrite filter_true.
Qed.

Lemma fresh_call evt s : Fresh s -> Fresh (exec (call evt) s).
Proof.
  intros H. unfold exec. rewrite call_spec.
  apply (Fresh_fewer s _ (fun t => negb (t_handle t =? timeoutHandle (this s)))); auto;
    destruct_state s; reflexivity.
Qed.

Lemma fresh_cancelPending s : Fresh s -> Fresh (exec cancelPending s).
Proof. intros H. unfold exec. rewrite cancelPending_spec. now apply fresh_clear. Qed.

Lemma fresh_listener args s : Fresh s -> Fresh (exec (listener args) s).
Proof.
  intros [Hp Ht Hd Hl Hne Hpu Hnd]. unfold exec. rewrite listener_spec. cbv zeta.
  destruct_state s. unfold pulse_timers, state_timers in *. cbn in *.
  split; unfold pulse_timers, state_timers; cbn; try lia.
  - intros t. rewrite in_app_iff, filter_In. intros [[Hin _]|[<-|[]]]; cbn.
    + specialize (Hp t Hin). lia.
    + lia.
  - intros t. rewrite filter_In, in_app_iff, filter_In.
    intros [[[Hin Hne']|[<-|[]]] Hpl]; [|reflexivity].
    exfalso. rewrite (Hpu t) in Hne' by (apply filter_In; auto).
    rewrite Z.eqb_refl in Hne'. discriminate.
  - apply nodup_handles_snoc; [now apply nodup_handles_filter|].
    intros t' Hin. apply filter_In in Hin as [Hin _]. cbn. specialize (Hp t' Hin). lia.
Qed.

Lemma fresh_pulse_step evt s : Fresh s -> Fresh (exec (pulse evt) s).
Proof.
  intros [Hp Ht Hd Hl Hne Hpu Hnd]. unfold exec. rewrite pulse_spec. cbv zeta.
  destruct_state s. unfold pulse_timers, state_timers in *. cbn in *.
  split; unfold pulse_timers, state_timers; cbn; try lia.
  - intros t. rewrite in_app_iff, !filter_In. intros [[[Hin _] _]|[<-|[]]]; cbn.
    + specialize (Hp t Hin). lia.
    + lia.
  - intros t. rewrite filter_In, in_app_iff, !filter_In.
    intros [[[[Hin _] _]|[<-|[]]] Hpl]; [|discriminate].
    apply Hpu. apply filter_In. auto.
  - apply nodup_handles_snoc; [now apply nodup_handles_filter, nodup_handles_filter|].
    intros t' Hin. apply filter_In in Hin as [Hin _]. apply filter_In in Hin as [Hin _].
    cbn. specialize (Hp t' Hin). lia.
Qed.

Lemma fresh_focusHandler evt s : Fresh s -> Fresh (exec (focusHandler evt) s).
Proof.
  intros H. unfold exec. rewrite focusHandler_spec. cbn [snd].
  destruct (with_element _ _ _); [exact H | now apply fresh_call].
Qed.

Lemma fresh_step a s : Fresh s -> Fresh (step a s).
Proof.
  intros H. destruct a; cbn [step].
  - now apply fresh_register.
  - now apply fresh_call.
  - now apply fresh_cancelPending.
  - now apply fresh_release.
  - unfold dispatch.
    change (Fresh (exec (forEach (filter (subscribed t (ev_type evt)) (listeners (host s)))
                                 (fun sub => handle (sub_handler sub) evt)) s)).
    apply forEach_preserves; [|exact H]. intros sub s' H'.
    destruct (sub_handler sub); cbn [handle]; rewrite exec_then_ret.
    + now apply fresh_listener.
    + now apply fresh_focusHandler.
    + now apply fresh_notify.
  - destruct (observing (host s)); [|exact H].
    unfold exec. rewrite cleanup_spec. cbn [snd].
    destruct (removes_element records s); [now apply fresh_release | exact H].
  - destruct (expire h (state_timers s)) as [[th q]|] eqn:E; [|exact H].
    apply TimersFacts.expire_some in E as [-> _].
    pose proof (fresh_clear h s H) as H'.
    destruct th; cbn [run_thunk].
    + exact H'.
    + rewrite exec_then_ret. now apply fresh_notify.
    + now apply fresh_pulse_step.
  - now apply fresh_elapse.
Qed.

Lemma fresh_constructor p h0 h m :
  pristine h0 -> constructor p h0 = (h, inr m) -> Fresh (mkState m h).
Proof.
  intros (Hl & Ho & Hp & Hn) Hc.
  apply constructor_success in Hc as (e & parent & Hr & Hpar & Ht & -> & Hh).
  assert (T : timers h = snd (setTimeout ThNoop 0 (timers h0))).
  { rewrite Hh. cbn [set_observing timers].
    destruct (or_default true _), (or_default false _);
      rewrite ?(proj1 (addEventListener_rest _ _ _ _));
      rewrite (proj1 (subscribe_events_rest _ _ _)); reflexivity. }
  clear Hh.
  split; unfold pulse_timers, state_timers; cbn [this host]; rewrite ?T;
    cbn [timeoutHandle debounced_timer listener_timer setTimeout snd tq_next tq_pending];
    rewrite ?Hp; cbn; try lia; auto.
  - intros t [<-|[]]. cbn. lia.
  - repeat constructor. easy.
Qed.

(** Every state a manager goes through keeps its handles fresh. *)
Lemma reachable_Fresh s : reachable s -> Fresh s.
Proof.
  induction 1 as [p h0 h m Hp Hc|a s _ IH].
  - eapply fresh_constructor; eassumption.
  - now apply fresh_step.
Qed.

(** *** Finding the timer a handle names *)

Lemma find_by_handle (l : list (Timer Thunk)) (t : Timer Thunk) :
  NoDup (map t_handle l) -> In t l ->
  find (fun t' => t_handle t' =? t_handle t) l = Some t.
Proof.
  induction l as [|x l IH]; cbn; [easy|]. intros Hnd Hin.
  inversion Hnd as [|? ? Hx Hl]; subst.
  destruct Hin as [->|Hin]; [now rewrite Z.eqb_refl|].
  destruct (Z.eqb_spec (t_handle x) (t_handle t)) as [E|E]; [|auto].
  exfalso. apply Hx. rewrite E. now apply in_map.
Qed.

Lemma expire_pending s t :
  Fresh s -> In t (tq_pending (state_timers s)) -> t_due t <= tq_clock (state_timers s) ->
  expire (t_handle t) (state_timers s) =
  Some (t_thunk t, clearTimeout (t_handle t) (state_timers s)).
Proof.
  intros HF Hin Hd. unfold expire, find_timer.
  rewrite (find_by_handle _ t (fresh_nodup s HF) Hin).
  destruct (Z.leb_spec (t_due t) (tq_clock (state_timers s))); [reflexivity | lia].
Qed.


(** The expiry of the event-debounce timer runs the pulse. *)
Lemma expire_pulse s t :
  reachable s -> In t (pulse_timers s) -> t_due t <= tq_clock (state_timers s) ->
  exists args,
    t_thunk t = ThPulse args /\
    step (Expire (listener_timer (this s))) s =
    exec (pulse args)
         (state_set_timers (clearTimeout (listener_timer (this s)) (state_timers s)) s).
Proof.
  intros Hr Hin Hd. pose proof (reachable_Fresh s Hr) as HF.
  pose proof (fresh_pulse s HF t Hin) as Hh.
  apply filter_In in Hin as [Hin Hp]. unfold is_pulse in Hp.
  destruct (t_thunk t) as [| |args] eqn:Hth; try discriminate.
  exists args. split; [reflexivity|].
  cbn [step]. rewrite <- Hh, (expire_pending s t HF Hin Hd), Hth. reflexivity.
Qed.

(** *** Which listeners an event reaches *)

Lemma event_name_injective k k' :
  String.eqb (event_name k) (event_name k') = true -> k = k'.
Proof. destruct k, k'; cbv; intros H; try reflexivity; discriminate. Qed.

Lemma interaction_listeners s e k :
  Inv s -> element (this s) = Some e ->
  In (listener_sub e k) (listeners (host s)) ->
  filter (subscribed (TElement (el_ref e)) (event_name k)) (listeners (host s)) =
  [listener_sub e k].
Proof.
  intros HI He Hin. apply filter_single; auto.
  - exact (inv_listeners_nodup s HI).
  - unfold subscribed, listener_sub. cbn. now rewrite Nat.eqb_refl, String.eqb_refl.
  - intros y Hy Hs. apply (inv_listeners s HI) in Hy.
    apply released_inv in Hy as [(e' & k' & He' & _ & ->)|[[_ ->]|(e' & He' & _ & ->)]].
    + unfold subscribed in Hs. cbn [sub_type sub_target] in Hs.
      apply andb_true_iff in Hs as [_ Hs]. apply event_name_injective in Hs.
      unfold listener_sub. congruence.
    + discriminate.
    + unfold subscribed in Hs. cbn [sub_type sub_target] in Hs.
      apply andb_true_iff in Hs as [_ Hs]. rewrite String.eqb_sym in Hs.
      now rewrite event_name_not_mouseleave in Hs.
Qed.

(** What one run of [this.listener] leaves. *)
Lemma after_listener args s :
  Inv s -> Fresh s ->
  let s' := exec (listener args) s in
  trace (host s') = trace (host s) /\
  listeners (host s') = listeners (host s) /\
  timeoutHandle (this s') = timeoutHandle (this s) /\
  listener_timer (this s') = tq_next (state_timers s) /\
  tq_clock (state_timers s') = tq_clock (state_timers s) /\
  idle_fire_timers s' = idle_fire_timers s /\
  pulse_timers s' =
    [mkTimer (tq_next (state_timers s))
             (tq_clock (state_timers s) + Timers.timeout (eventDebounceTimeout (this s)))
             (ThPulse args)].
Proof.
  intros HI HF. cbv zeta. unfold exec. rewrite listener_spec. cbv zeta. cbn [snd].
  repeat split; try (destruct_state s; reflexivity).
  - unfold idle_fire_timers, state_timers. cbn [host timers set_timers].
    rewrite idle_fire_set. cbn [is_idle_fire t_thunk]. rewrite app_nil_r, idle_fire_clear.
    apply filter_all. intros t Ht. destruct (inv_idle_handle s HI t Ht) as [-> _].
    destruct (Z.eqb_spec (timeoutHandle (this s)) (listener_timer (this s))) as [E|E];
      [|reflexivity].
    exfalso. apply (fresh_distinct s HF). now rewrite E.
  - unfold pulse_timers, state_timers. cbn [host timers set_timers].
    unfold setTimeout. cbn [snd tq_pending]. rewrite filter_app. cbn [filter is_pulse t_thunk].
    rewrite TimersFacts.filter_none; [destruct_state s; reflexivity|].
    intros t Ht. apply filter_In in Ht as [Ht Hne].
    destruct (is_pulse t) eqn:Hp; [|reflexivity]. exfalso.
    rewrite (fresh_pulse s HF t) in Hne by (apply filter_In; auto).
    rewrite Z.eqb_refl in Hne. discriminate.
Qed.

Lemma dispatch_interaction s e k evt :
  Inv s -> element (this s) = Some e ->
  In (listener_sub e k) (listeners (host s)) -> ev_type evt = event_name k ->
  step (Dispatch (TElement (el_ref e)) evt) s = exec (listener (Some evt)) s.
Proof.
  intros HI He Hin Ht. cbn [step]. unfold exec at 1, dispatch.
  rewrite Ht, (interaction_listeners s e k HI He Hin).
  cbn [forEach sub_handler listener_sub handle]. unfold bind, ret, exec.
  now destruct (listener (Some evt) s).
Qed.

(** X7: an interaction event that reaches the element invokes no callback
    and leaves the idle-fire timer as it is; it replaces the pending
    event-debounce timer by one that carries this event and is due
    [eventDebounceTimeout] later. *)
Theorem interaction_event_only_schedules s e k evt :
  reachable s -> element (this s) = Some e ->
  In (listener_sub e k) (listeners (host s)) -> ev_type evt = event_name k ->
  let s' := step (Dispatch (TElement (el_ref e)) evt) s in
  trace (host s') = trace (host s) /\
  idle_fire_timers s' = idle_fire_timers s /\
  pulse_timers s' =
    [mkTimer (tq_next (state_timers s))
             (tq_clock (state_timers s) + Timers.timeout (eventDebounceTimeout (this s)))
             (ThPulse (Some evt))].
Proof.
  intros Hr He Hin Ht. cbv zeta.
  rewrite (dispatch_interaction s e k evt (reachable_Inv s Hr) He Hin Ht).
  destruct (after_listener (Some evt) s (reachable_Inv s Hr) (reachable_Fresh s Hr))
    as (H1 & _ & _ & _ & _ & H2 & H3).
  auto.
Qed.

Lemma interaction_event_only_schedules_witness :
  let s := run [Register 3%nat; Dispatch (TElement 1) Examples.click;
                Elapse 500; Expire 2; Elapse 100] Examples.box_manager in
  let s' := step (Dispatch (TElement 1) Examples.click) s in
  trace (host s') = [] /\
  idle_fire_timers s' = [mkTimer 3 1500 (ThNotify None)] /\
  pulse_timers s' = [mkTimer 4 1100 (ThPulse (Some Examples.click))].
Proof.
  cbv zeta.
  apply (interaction_event_only_schedules
           (run [Register 3%nat; Dispatch (TElement 1) Examples.click;
                 Elapse 500; Expire 2; Elapse 100] Examples.box_manager)
           Examples.box CLICK Examples.click).
  - apply run_reachable, box_manager_reachable.
  - reflexivity.
  - vm_compute. auto 10.
  - reflexivity.
Defined.

(** *** From the event to the idle notification *)

Lemma no_members {X : Type} (l : list X) : (forall x, ~ In x l) -> l = [].
Proof. destruct l as [|x l]; [reflexivity|]. intros H. destruct (H x). now left. Qed.

Lemma elapse_view d s :
  let s' := step (Elapse d) s in
  this s' = this s /\ trace (host s') = trace (host s) /\
  tq_pending (state_timers s') = tq_pending (state_timers s) /\
  tq_clock (state_timers s') = tq_clock (state_timers s) + Z.max 0 d.
Proof. destruct_state s. cbn. auto. Qed.

Lemma clear_view h s :
  let s' := state_set_timers (clearTimeout h (state_timers s)) s in
  this s' = this s /\ trace (host s') = trace (host s) /\
  tq_clock (state_timers s') = tq_clock (state_timers s) /\
  tq_pending (state_timers s') =
    filter (fun t => negb (t_handle t =? h)) (tq_pending (state_timers s)).
Proof. destruct_state s. cbn. auto. Qed.

Lemma pulse_view args s :
  let s' := exec (pulse args) s in
  trace (host s') = trace (host s) /\
  registeredCallbacks (this s') = registeredCallbacks (this s) /\
  tq_clock (state_timers s') = tq_clock (state_timers s) /\
  (forall t, In t (pulse_timers s') -> In t (pulse_timers s)).
Proof.
  cbv zeta. unfold exec. rewrite pulse_spec. cbv zeta. cbn [snd].
  repeat split; try (destruct_state s; reflexivity).
  intros t. unfold pulse_timers, state_timers. cbn [host timers set_timers].
  unfold setTimeout, clearTimeout. cbn [snd tq_pending].
  rewrite filter_In, in_app_iff, !filter_In.
  intros [[[[Hin _] _]|[<-|[]]] Hp]; [|discriminate].
  split; assumption.
Qed.

Lemma notify_view evt s :
  let s' := exec (notify evt) s in
  this s' = this s /\ state_timers s' = state_timers s /\
  trace (host s') = trace (host s) ++ invocations evt (this s).
Proof. cbv zeta. unfold exec. rewrite notify_spec. destruct_state s. cbn. auto. Qed.

Lemma idle_fire_cleared h s :
  idle_fire_timers (state_set_timers (clearTimeout h (state_timers s)) s) =
  filter (fun t => negb (t_handle t =? h)) (idle_fire_timers s).
Proof.
  unfold idle_fire_timers. destruct (clear_view h s) as (_ & _ & _ & ->).
  rewrite !filter_filter. apply filter_ext. intros t. apply andb_comm.
Qed.

Lemma pulse_cleared h s :
  pulse_timers (state_set_timers (clearTimeout h (state_timers s)) s) =
  filter (fun t => negb (t_handle t =? h)) (pulse_timers s).
Proof.
  unfold pulse_timers. destruct (clear_view h s) as (_ & _ & _ & ->).
  rewrite !filter_filter. apply filter_ext. intros t. apply andb_comm.
Qed.

(** Two pending timers with the same handle are the same timer. *)
Lemma same_handle s t t' :
  Fresh s -> In t (tq_pending (state_timers s)) -> In t' (tq_pending (state_timers s)) ->
  t_handle t' = t_handle t -> t' = t.
Proof.
  intros HF Hin Hin' Hh. pose proof (fresh_nodup s HF) as Hnd.
  pose proof (find_by_handle _ t Hnd Hin) as F1.
  pose proof (find_by_handle _ t' Hnd Hin') as F2.
  rewrite Hh in F2. congruence.
Qed.

(** One timer stays when another one is cleared. *)
Lemma keeps_other (l : list (Timer Thunk)) s t t' h :
  Fresh s -> In t (tq_pending (state_timers s)) -> t_handle t = h ->
  In t' (tq_pending (state_timers s)) -> t' <> t ->
  filter (fun x => negb (t_handle x =? h)) [t'] = [t'].
Proof.
  intros HF Hin Hh Hin' Hne. cbn.
  destruct (Z.eqb_spec (t_handle t') h) as [E|E]; [|reflexivity].
  exfalso. apply Hne. apply (same_handle s t t' HF Hin Hin'). congruence.
Qed.

Lemma timer_move_fields a s :
  is_timer_move a = true ->
  registeredCallbacks (this (step a s)) = registeredCallbacks (this s) /\
  callbackDebounceTimeout (this (step a s)) = callbackDebounceTimeout (this s).
Proof.
  destruct a; try discriminate; intros _; cbn [step].
  - destruct (expire h (state_timers s)) as [[th q]|]; [|auto].
    destruct th; cbn [run_thunk]; rewrite ?exec_then_ret; unfold exec;
      rewrite ?notify_spec, ?pulse_spec; destruct_state s; cbn; auto.
  - destruct_state s. cbn. auto.
Qed.

(** A move of the clock or of a timer takes a manager from one stage to
    the same or the next. *)
Lemma stage_step s0 x a :
  reachable x -> stage s0 x -> is_timer_move a = true -> stage s0 (step a x).
Proof.
  intros Hr (Hcb & Hcto & Hst) Ha.
  pose proof (reachable_Inv x Hr) as HI. pose proof (reachable_Fresh x Hr) as HF.
  destruct (timer_move_fields a x Ha) as [F1 F2].
  split; [congruence|]. split; [congruence|]. clear F1 F2.
  destruct a as [| | | | | |h|d]; try discriminate.
  - (* a timer expires *)
    cbn [step]. destruct (expire h (state_timers x)) as [[th q]|] eqn:E; [|exact Hst].
    apply TimersFacts.expire_some in E as [-> (t & Hin & Hh & Hth & Hdue)].
    destruct (clear_view h x) as (Ec & Tc & Kc & Qc).
    pose proof (idle_fire_cleared h x) as Ic. pose proof (pulse_cleared h x) as Pc.
    pose proof (inv_clear h x HI) as HIc.
    set (c := state_set_timers (clearTimeout h (state_timers x)) x) in *.
    destruct th as [|a|a]; cbn [run_thunk].
    + (* the timer of the field initialiser *)
      assert (Ei : forall t', In t' (idle_fire_timers x) -> t' <> t /\ In t' (tq_pending (state_timers x))).
      { intros t' Ht'. apply filter_In in Ht' as [Hp Hi]. split; [|exact Hp].
        intros ->. unfold is_idle_fire in Hi. now rewrite Hth in Hi. }
      assert (Ep : forall t', In t' (pulse_timers x) -> t' <> t /\ In t' (tq_pending (state_timers x))).
      { intros t' Ht'. apply filter_In in Ht' as [Hp Hi]. split; [|exact Hp].
        intros ->. unfold is_pulse in Hi. now rewrite Hth in Hi. }
      unfold exec, ret. cbn [snd].
      destruct Hst as [(T & I & tp & P & D)|[(T & P & tn & I & D)|(T & I & P & D)]].
      * left. split; [congruence|]. split; [now rewrite Ic, I|].
        exists tp. split; [|exact D]. rewrite Pc, P.
        destruct (Ep tp) as [Hne Hp]; [rewrite P; now left|].
        apply (keeps_other [] x t tp h HF Hin Hh Hp Hne).
      * right. left. split; [congruence|]. split; [now rewrite Pc, P|].
        exists tn. split; [|exact D]. rewrite Ic, I.
        destruct (Ei tn) as [Hne Hp]; [rewrite I; now left|].
        apply (keeps_other [] x t tn h HF Hin Hh Hp Hne).
      * right. right. split; [congruence|]. split; [now rewrite Ic, I|].
        split; [now rewrite Pc, P|]. now rewrite Kc.
    + (* the idle-fire timer *)
      assert (Hi : In t (idle_fire_timers x))
        by (apply filter_In; split; [exact Hin | unfold is_idle_fire; now rewrite Hth]).
      destruct (inv_idle_handle x HI t Hi) as [_ Ha']. rewrite Hth in Ha'.
      injection Ha' as ->.
      rewrite exec_then_ret. destruct (notify_view None c) as (En & Qn & Tn).
      destruct Hst as [(T & I & _)|[(T & P & tn & I & D)|(T & I & _)]];
        try solve [rewrite I in Hi; destruct Hi].
      rewrite I in Hi. destruct Hi as [->|[]].
      right. right. split; [|split; [|split]].
      * rewrite Tn, Tc, T, Ec. unfold invocations. now rewrite Hcb.
      * unfold idle_fire_timers. rewrite Qn. fold (idle_fire_timers c).
        rewrite Ic, I. cbn. now rewrite Hh, Z.eqb_refl.
      * unfold pulse_timers. rewrite Qn. fold (pulse_timers c). now rewrite Pc, P.
      * rewrite Qn, Kc. lia.
    + (* the event-debounce timer *)
      assert (Hp : In t (pulse_timers x))
        by (apply filter_In; split; [exact Hin | unfold is_pulse; now rewrite Hth]).
      destruct (pulse_view a c) as (T3 & _ & K3 & S3).
      pose proof (idle_fire_pulse a c HIc) as I3.
      destruct Hst as [(T & I & tp & P & D)|[(T & P & _)|(T & I & P & _)]];
        try solve [rewrite P in Hp; destruct Hp].
      rewrite P in Hp. destruct Hp as [->|[]].
      right. left. split; [congruence|]. split.
      * apply no_members. intros t' Ht'. apply S3 in Ht'. rewrite Pc, P in Ht'.
        cbn in Ht'. rewrite Hh, Z.eqb_refl in Ht'. destruct Ht'.
      * eexists. split; [exact I3|]. cbn [t_due]. rewrite Kc, Ec, Hcto. lia.
  - (* time passes *)
    destruct (elapse_view d x) as (Ee & Te & Qe & Ke).
    assert (Ie : idle_fire_timers (step (Elapse d) x) = idle_fire_timers x)
      by (unfold idle_fire_timers; now rewrite Qe).
    assert (Pe : pulse_timers (step (Elapse d) x) = pulse_timers x)
      by (unfold pulse_timers; now rewrite Qe).
    destruct Hst as [(T & I & tp & P & D)|[(T & P & tn & I & D)|(T & I & P & D)]].
    + left. split; [congruence|]. split; [congruence|]. exists tp. split; [congruence|exact D].
    + right. left. split; [congruence|]. split; [congruence|].
      exists tn. split; [congruence|exact D].
    + right. right. split; [congruence|]. split; [congruence|]. split; [congruence|].
      rewrite Ke. lia.
Qed.

Lemma stage_run s0 moves x :
  reachable x -> stage s0 x -> forallb is_timer_move moves = true ->
  stage s0 (run moves x).
Proof.
  unfold run. revert x. induction moves as [|a moves IH]; intros x Hr Hs Hm; [exact Hs|].
  cbn in Hm. apply andb_true_iff in Hm as [Ha Hm]. cbn [fold_left].
  apply IH; [now constructor | now apply stage_step | exact Hm].
Qed.

(** X8: an interaction event that comes when no idle-fire timer is
    pending, and is followed by nothing but moves of the clock and of the
    timers, in whatever order the host makes them, gives at most one idle
    notification.  At every moment either the event-debounce timer of the
    event is pending and nothing was invoked; or the idle-fire timer is
    pending, due no earlier than both delays after the event, and nothing
    was invoked; or no timer of either stage is pending, both delays have
    passed, and every registered callback was invoked once, in order,
    without an event. *)
Theorem idle_notification_after_event s e k evt moves :
  reachable s -> element (this s) = Some e ->
  In (listener_sub e k) (listeners (host s)) -> ev_type evt = event_name k ->
  idle_fire_timers s = [] ->
  forallb is_timer_move moves = true ->
  let s' := run moves (step (Dispatch (TElement (el_ref e)) evt) s) in
  let both := tq_clock (state_timers s)
              + Timers.timeout (eventDebounceTimeout (this s))
              + Timers.timeout (callbackDebounceTimeout (this s)) in
  (trace (host s') = trace (host s) /\ idle_fire_timers s' = [] /\
   exists t, pulse_timers s' = [t]) \/
  (trace (host s') = trace (host s) /\ pulse_timers s' = [] /\
   exists t, idle_fire_timers s' = [t] /\ both <= t_due t) \/
  (trace (host s') =
     trace (host s) ++ map (fun cb => (cb, None)) (registeredCallbacks (this s)) /\
   idle_fire_timers s' = [] /\ pulse_timers s' = [] /\
   both <= tq_clock (state_timers s')).
Proof.
  intros Hr He Hin Ht Hi Hm. cbv zeta.
  pose proof (reachable_Inv s Hr) as HI. pose proof (reachable_Fresh s Hr) as HF.
  assert (R1 : reachable (step (Dispatch (TElement (el_ref e)) evt) s)) by now constructor.
  assert (S1 : stage s (step (Dispatch (TElement (el_ref e)) evt) s)).
  { rewrite (dispatch_interaction s e k evt HI He Hin Ht).
    destruct (after_listener (Some evt) s HI HF) as (T1 & _ & _ & _ & _ & I1 & P1).
    split; [now apply (kept_listener (registeredCallbacks (this s)))|].
    split; [unfold exec; rewrite listener_spec; destruct_state s; reflexivity|].
    left. split; [exact T1|]. split; [congruence|]. eexists. split; [exact P1|reflexivity]. }
  destruct (stage_run s moves _ R1 S1 Hm)
    as (_ & _ & [(T & I & t & P & _)|[(T & P & t & I & D)|(T & I & P & D)]]);
    unfold early in *.
  - left. eauto.
  - right. left. eauto.
  - right. right. auto.
Qed.

Lemma idle_notification_after_event_witness :
  let s := run [Register 3%nat; Register 4%nat; Expire 1] Examples.box_manager in
  let s' := run [Elapse 500; Expire 2; Elapse 1000; Expire 3]
                (step (Dispatch (TElement 1) Examples.click) s) in
  idle_fire_timers s = [] /\
  trace (host s') = [(3%nat, None); (4%nat, None)].
Proof.
  cbv zeta. split; [reflexivity|].
  assert (R : reachable (run [Register 3%nat; Register 4%nat; Expire 1] Examples.box_manager))
    by apply run_reachable, box_manager_reachable.
  assert (Hin : In (listener_sub Examples.box CLICK)
                   (listeners (host (run [Register 3%nat; Register 4%nat; Expire 1]
                                         Examples.box_manager)))).
  { right. right. left. reflexivity. }
  destruct (idle_notification_after_event
              (run [Register 3%nat; Register 4%nat; Expire 1] Examples.box_manager)
              Examples.box CLICK Examples.click
              [Elapse 500; Expire 2; Elapse 1000; Expire 3]
              R eq_refl Hin eq_refl eq_refl eq_refl)
    as [(_ & _ & t & P)|[(_ & P & _)|(T & _)]].
  - discriminate P.
  - reflexivity.
  - exact T.
Defined.

(** *** The immediate triggers and the timers *)




Lemma dispatch_focus s evt :
  Inv s ->
  In (mkSub TDocument "focus" HFocusHandler) (listeners (host s)) ->
  ev_type evt = "focus"%string ->
  step (Dispatch TDocument evt) s = exec (focusHandler evt) s.
Proof.
  intros HI Hin Ht. cbn [step]. unfold exec at 1, dispatch.
  rewrite Ht, (focus_listeners s HI Hin).
  cbn [forEach sub_handler handle]. unfold bind, ret, exec.
  now destruct (focusHandler evt s).
Qed.

(** X10: a focus event whose target is inside the element changes
    nothing; one whose target is outside cancels the idle-fire timer, and
    leaves the event-debounce timer pending. *)
Theorem focus_inside_or_outside s e evt :
  reachable s -> element (this s) = Some e ->
  In (mkSub TDocument "focus" HFocusHandler) (listeners (host s)) ->
  ev_type evt = "focus"%string ->
  let s' := step (Dispatch TDocument evt) s in
  if contains e (ev_target evt) then s' = s
  else idle_fire_timers s' = [] /\ pulse_timers s' = pulse_timers s.
Proof.
  intros Hr He Hin Ht. cbv zeta.
  pose proof (reachable_Inv s Hr) as HI. pose proof (reachable_Fresh s Hr) as HF.
  rewrite (dispatch_focus s evt HI Hin Ht). unfold exec. rewrite focusHandler_spec.
  unfold with_element. rewrite He. cbn [snd].
  destruct (contains e (ev_target evt)); [reflexivity|].
  unfold exec. rewrite call_spec. cbn [snd].
  unfold idle_fire_timers, pulse_timers, state_timers. cbn [host timers set_timers set_trace].
  split.
  - rewrite idle_fire_clear. apply TimersFacts.filter_none. intros t Hi.
    destruct (inv_idle_handle s HI t Hi) as [-> _]. now rewrite Z.eqb_refl.
  - unfold clearTimeout. cbn [tq_pending]. rewrite filter_filter.
    apply filter_ext_in. intros t Hin'.
    destruct (is_pulse t) eqn:Hp; [|now rewrite andb_false_r].
    rewrite andb_true_r.
    destruct (Z.eqb_spec (t_handle t) (timeoutHandle (this s))) as [E|E]; [|reflexivity].
    exfalso. apply (fresh_distinct s HF). rewrite <- E. symmetry.
    apply (fresh_pulse s HF). apply filter_In. auto.
Qed.

Lemma focus_inside_or_outside_witness :
  let s := run [Dispatch (TElement 1) Examples.click; Elapse 500; Expire 2;
                Dispatch (TElement 1) Examples.click] Examples.box_manager_focus in
  step (Dispatch TDocument (mkEvent 10 "focus" (Some 2%nat))) s = s /\
  idle_fire_timers (step (Dispatch TDocument Examples.focus_out) s) = [] /\
  pulse_timers (step (Dispatch TDocument Examples.focus_out) s) = pulse_timers s.
Proof.
  cbv zeta.
  assert (R : reachable (run [Dispatch (TElement 1) Examples.click; Elapse 500; Expire 2;
                              Dispatch (TElement 1) Examples.click]
                             Examples.box_manager_focus))
    by apply run_reachable, box_manager_focus_reachable.
  assert (Hin : In (mkSub TDocument "focus" HFocusHandler)
                   (listeners (host (run [Dispatch (TElement 1) Examples.click; Elapse 500;
                                          Expire 2; Dispatch (TElement 1) Examples.click]
                                         Examples.box_manager_focus))))
    by (vm_compute; auto 10).
  split.
  - exact (focus_inside_or_outside _ Examples.box (mkEvent 10 "focus" (Some 2%nat))
             R eq_refl Hin eq_refl).
  - exact (focus_inside_or_outside _ Examples.box Examples.focus_out R eq_refl Hin eq_refl).
Defined.

(** X11: an event of a kind the manager does not watch, reaching any
    element, changes nothing. *)
Theorem unwatched_event_is_ignored s evt r :
  reachable s ->
  (forall k, In k (eventList (this s)) -> ev_type evt <> event_name k) ->
  ev_type evt <> "mouseleave"%string ->
  step (Dispatch (TElement r) evt) s = s.
Proof.
  intros Hr Hk Hl. pose proof (reachable_Inv s Hr) as HI.
  cbn [step]. unfold exec, dispatch.
  rewrite TimersFacts.filter_none; [reflexivity|].
  intros y Hy. destruct (subscribed (TElement r) (ev_type evt) y) eqn:Hs; [|reflexivity].
  exfalso. apply (inv_listeners s HI) in Hy. unfold subscribed in Hs.
  apply andb_true_iff in Hs as [Hs1 Hs2]. apply String.eqb_eq in Hs2.
  apply released_inv in Hy as [(e' & k' & _ & Hin & ->)|[[_ ->]|(e' & _ & _ & ->)]];
    cbn [sub_type sub_target] in *.
  - now apply (Hk k' Hin).
  - discriminate.
  - now apply Hl.
Qed.

Lemma unwatched_event_is_ignored_witness :
  step (Dispatch (TElement 1) (mkEvent 11 "keypress" (Some 1%nat))) Examples.box_manager
  = Examples.box_manager.
Proof.
  apply (unwatched_event_is_ignored Examples.box_manager
           (mkEvent 11 "keypress" (Some 1%nat)) 1 box_manager_reachable).
  - intros k [<-|[<-|[<-|[<-|[]]]]]; discriminate.
  - discriminate.
Defined.

(** With no timer of either stage pending, the clock and the timers
    invoke nothing and schedule nothing. *)
Lemma silent_moves moves s :
  idle_fire_timers s = [] -> pulse_timers s = [] ->
  forallb is_timer_move moves = true ->
  trace (host (run moves s)) = trace (host s).
Proof.
  unfold run. revert s. induction moves as [|a moves IH]; intros s Hi Hp Hm; [reflexivity|].
  cbn in Hm. apply andb_true_iff in Hm as [Ha Hm]. cbn [fold_left].
  destruct a; try discriminate; cbn [step].
  - destruct (expire h (state_timers s)) as [[th q]|] eqn:E; [|now apply IH].
    apply TimersFacts.expire_some in E as [-> (t & Hin & _ & Hth & _)].
    destruct (clear_view h s) as (Ec & Tc & _ & Qc).
    assert (th = ThNoop) as ->.
    { destruct th as [|a|a]; [reflexivity| |]; exfalso.
      - assert (In t (idle_fire_timers s))
          by (apply filter_In; split; [exact Hin | unfold is_idle_fire; now rewrite Hth]).
        rewrite Hi in *. easy.
      - assert (In t (pulse_timers s))
          by (apply filter_In; split; [exact Hin | unfold is_pulse; now rewrite Hth]).
        rewrite Hp in *. easy. }
    cbn [run_thunk]. unfold exec, ret. cbn [snd]. rewrite IH; [exact Tc| | |exact Hm].
    + apply no_members. intros x Hx. unfold idle_fire_timers in Hx. rewrite Qc in Hx.
      apply filter_In in Hx as [Hx Hf]. apply filter_In in Hx as [Hx _].
      assert (In x (idle_fire_timers s)) by (apply filter_In; auto).
      rewrite Hi in *. easy.
    + apply no_members. intros x Hx. unfold pulse_timers in Hx. rewrite Qc in Hx.
      apply filter_In in Hx as [Hx Hf]. apply filter_In in Hx as [Hx _].
      assert (In x (pulse_timers s)) by (apply filter_In; auto).
      rewrite Hp in *. easy.
  - destruct (elapse_view d s) as (_ & Te & Qe & _). cbn [step] in Te, Qe.
    rewrite IH; [exact Te| | |exact Hm].
    + unfold idle_fire_timers. now rewrite Qe.
    + unfold pulse_timers. now rewrite Qe.
Qed.

(** X12: [cancelPending] leaves the event-debounce timer pending; when
    none is pending, no passing of time after [cancelPending] invokes a
    callback. *)
Theorem cancelPending_then_silence s moves :
  reachable s ->
  pulse_timers (step CancelPending s) = pulse_timers s /\
  (pulse_timers s = [] -> forallb is_timer_move moves = true ->
   trace (host (run moves (step CancelPending s))) = trace (host s)).
Proof.
  intros Hr. pose proof (reachable_Inv s Hr) as HI. pose proof (reachable_Fresh s Hr) as HF.
  cbn [step]. unfold exec. rewrite cancelPending_spec. cbn [snd].
  destruct (clear_view (timeoutHandle (this s)) s) as (Ec & Tc & _ & Qc).
  set (c := state_set_timers _ s) in *.
  assert (P : pulse_timers c = pulse_timers s).
  { unfold pulse_timers. rewrite Qc, filter_filter. apply filter_ext_in. intros t Hin.
    destruct (is_pulse t) eqn:Hp; [|now rewrite andb_false_r]. rewrite andb_true_r.
    destruct (Z.eqb_spec (t_handle t) (timeoutHandle (this s))) as [E|E]; [|reflexivity].
    exfalso. apply (fresh_distinct s HF). rewrite <- E. symmetry.
    apply (fresh_pulse s HF). apply filter_In. auto. }
  split; [exact P|]. intros Hp Hm. rewrite silent_moves; auto; [|congruence].
  apply no_members. intros t Ht. unfold idle_fire_timers in Ht. rewrite Qc in Ht.
  apply filter_In in Ht as [Ht Hf]. apply filter_In in Ht as [Ht Hne].
  destruct (inv_idle_handle s HI t) as [Hh _]; [apply filter_In; auto|].
  rewrite Hh, Z.eqb_refl in Hne. discriminate.
Qed.

Lemma cancelPending_then_silence_witness :
  let s := run [Register 3%nat; Dispatch (TElement 1) Examples.click;
                Elapse 500; Expire 2] Examples.box_manager in
  pulse_timers s = [] /\
  trace (host (run [Elapse 1000; Expire 3; Elapse 5000; Expire 1]
                   (step CancelPending s))) = [].
Proof.
  cbv zeta. split; [reflexivity|].
  exact (proj2 (cancelPending_then_silence
                  (run [Register 3%nat; Dispatch (TElement 1) Examples.click;
                        Elapse 500; Expire 2] Examples.box_manager)
                  [Elapse 1000; Expire 3; Elapse 5000; Expire 1]
                  (run_reachable _ _ box_manager_reachable))
               eq_refl eq_refl).
Defined.



(** X14: [release] is idempotent, and it changes neither the fields of
    the instance, nor the timers, nor what was invoked. *)
Theorem release_twice s :
  step Release (step Release s) = step Release s /\
  this (step Release s) = this s /\
  state_timers (step Release s) = state_timers s /\
  trace (host (step Release s)) = trace (host s).
Proof.
  cbn [step]. split; [apply release_idempotent|].
  unfold exec. rewrite release_spec. destruct_state s. cbn. auto.
Qed.

(** *** Construction *)

Lemma make_selector_truthy sel el :
  truthy (make_selector sel el) = truthy_opt sel || truthy_opt (option_map el_id el).
Proof. unfold make_selector. now destruct (_ || _). Qed.

Lemma constructor_built p h0 e parent :
  truthy (make_selector (p_selector p) (p_element p)) = true ->
  resolve_element (document h0) (make_selector (p_selector p) (p_element p)) (p_element p)
    = inr e ->
  el_parentNode e = Some parent ->
  exists h m, constructor p h0 = (h, inr m).
Proof.
  intros Ht Hr Hp. unfold constructor. cbn [setTimeout]. cbv zeta. cbn [document set_timers].
  rewrite Ht. cbn [negb]. rewrite Hr, Hp. cbn [observe]. eauto.
Qed.

(** What a successful construction does not touch. *)
Lemma construction_built_empty p h0 h m :
  constructor p h0 = (h, inr m) ->
  registeredCallbacks m = [] /\ trace h = trace h0 /\ document h = document h0.
Proof.
  intros Hc. apply constructor_success in Hc as (e & parent & _ & _ & _ & -> & ->).
  split; [reflexivity|]. cbn [trace document set_observing].
  destruct (or_default true _), (or_default false _);
    repeat match goal with
           | |- context [trace (addEventListener ?t ?ty ?f ?x)] =>
               rewrite (proj1 (proj2 (proj2 (addEventListener_rest t ty f x))))
           | |- context [document (addEventListener ?t ?ty ?f ?x)] =>
               rewrite (proj2 (proj2 (proj2 (addEventListener_rest t ty f x))))
           end;
    rewrite (proj1 (proj2 (proj2 (subscribe_events_rest _ _ _)))),
            (proj2 (proj2 (proj2 (subscribe_events_rest _ _ _)))); auto.
Qed.

(** Nothing subscribes again: with no listener left and the observer
    disconnected, every action leaves it so. *)
Lemma unsubscribed_step a s :
  listeners (host s) = [] /\ observing (host s) = None ->
  listeners (host (step a s)) = [] /\ observing (host (step a s)) = None.
Proof.
  intros [Hl Ho]. destruct a; cbn [step].
  - unfold exec. rewrite register_spec. cbn [snd].
    destruct (existsb _ _); [auto | destruct_state s; auto].
  - unfold exec. rewrite call_spec. destruct_state s. auto.
  - unfold exec. rewrite cancelPending_spec. destruct_state s. auto.
  - unfold exec. rewrite release_spec. cbn. rewrite Hl. auto.
  - unfold exec, dispatch. rewrite Hl. cbn. auto.
  - rewrite Ho. auto.
  - destruct (expire h (state_timers s)) as [[th q]|]; [|auto].
    destruct th; cbn [run_thunk]; rewrite ?exec_then_ret; unfold exec;
      rewrite ?notify_spec, ?pulse_spec; destruct_state s; cbn in *; auto.
  - destruct_state s. auto.
Qed.

(** A released manager stays released: whatever its holder and the host
    do after [release], timers firing included, no event and no mutation
    report changes anything afterwards. *)
Lemma released_stays_released s acts a :
  reachable s -> is_event a = true ->
  step a (run acts (step Release s)) = run acts (step Release s).
Proof.
  intros Hr Ha.
  assert (H : listeners (host (run acts (step Release s))) = [] /\
              observing (host (run acts (step Release s))) = None).
  { unfold run. generalize (release_clears s (reachable_Inv s Hr)).
    change (exec release s) with (step Release s).
    generalize (step Release s). induction acts as [|b acts IH]; intros x Hx; [exact Hx|].
    cbn [fold_left]. apply IH. now apply unsubscribed_step. }
  destruct H as [Hl Ho]. revert Hl Ho. generalize (run acts (step Release s)).
  intros x Hl Ho. destruct a; try discriminate; cbn [step].
  - unfold exec, dispatch. rewrite Hl. reflexivity.
  - now rewrite Ho.
Qed.

(** X15: the construction succeeds exactly when the element has a parent
    node and is either the handle given, the selector or the handle's id
    being non-empty, or, without a handle and with a non-empty selector,
    the element [#undefined] of the document. *)
Theorem constructor_succeeds_iff p h0 :
  (exists h m, constructor p h0 = (h, inr m)) <->
  exists e parent,
    el_parentNode e = Some parent /\
    ((p_element p = Some e /\
      truthy_opt (p_selector p) || truthy (el_id e) = true) \/
     (p_element p = None /\ truthy_opt (p_selector p) = true /\
      querySelector (document h0) "#undefined" = Some e)).
Proof.
  split.
  - intros (h & m & Hc).
    apply constructor_success in Hc as (e & parent & Hr & Hpar & Ht & _ & _).
    exists e, parent. split; [exact Hpar|].
    rewrite make_selector_truthy in Ht. unfold make_selector in Hr.
    destruct (p_element p) as [e0|] eqn:He; cbn in *.
    + injection Hr as ->. left. auto.
    + right. rewrite orb_false_r in Ht. rewrite Ht in Hr. cbn in Hr.
      destruct (querySelector _ _) as [e'|]; cbn in Hr; [|discriminate].
      injection Hr as ->. auto.
  - intros (e & parent & Hpar & [[He Ht]|(He & Ht & Hq)]).
    + apply (constructor_built p h0 e parent); auto.
      * rewrite make_selector_truthy, He. exact Ht.
      * now rewrite He.
    + apply (constructor_built p h0 e parent); auto.
      * rewrite make_selector_truthy, He, Ht. reflexivity.
      * rewrite He. unfold make_selector. rewrite Ht. cbn. now rewrite Hq.
Qed.

(** X16: what a non-empty selector says is never read: two parameter
    objects that differ in their non-empty selectors construct the same
    manager, or fail alike. *)
Theorem selector_text_is_ignored p sel1 sel2 h0 :
  truthy sel1 = true -> truthy sel2 = true ->
  constructor (with_selector (Some sel1) p) h0 = constructor (with_selector (Some sel2) p) h0.
Proof.
  intros H1 H2. unfold constructor, with_selector, make_selector.
  cbn [p_selector p_element p_eventDebounceTimeout p_callbackDebounceTimeout
       p_notifyOnFocusLoss p_notifyOnMouseLeave p_interactiveEvents truthy_opt].
  rewrite H1, H2. reflexivity.
Qed.

Lemma selector_text_is_ignored_witness :
  constructor (with_selector (Some "#box"%string) (Examples.defaults None None))
              (fresh_host Examples.doc_undefined)
  = constructor (with_selector (Some "form.signup input"%string)
                               (Examples.defaults None None))
                (fresh_host Examples.doc_undefined).
Proof.
  apply (selector_text_is_ignored (Examples.defaults None None)
           "#box" "form.signup input" (fresh_host Examples.doc_undefined));
    reflexivity.
Defined.

(** X17: a successful construction on a host where nothing of the manager
    is subscribed yet leaves subscribed exactly what [release] removes,
    each subscription once; it observes the element's parent, registers no
    callback, invokes nothing, and leaves pending the one timer of the
    field initialiser, which [timeoutHandle] names. *)
Theorem construction_subscribes_what_release_removes p h0 h m :
  pristine h0 -> constructor p h0 = (h, inr m) ->
  (forall sub, In sub (listeners h) <-> released m sub = true) /\
  NoDup (listeners h) /\
  listeners (host (exec release (mkState m h))) = [] /\
  observing h = with_element m None el_parentNode /\
  registeredCallbacks m = [] /\
  trace h = trace h0 /\
  tq_pending (timers h) = [mkTimer (timeoutHandle m) (tq_clock (timers h0) + 0) ThNoop].
Proof.
  intros Hpr Hc.
  pose proof (inv_constructor p h0 h m Hpr Hc) as HI.
  destruct Hpr as (Hl & Ho & Hp & Hn).
  apply constructor_success in Hc as (e & parent & Hr & Hpar & Ht & -> & ->).
  set (evl := or_default _ (p_interactiveEvents p)) in *.
  set (fl := or_default false _) in *. set (ml := or_default true _) in *.
  set (h1 := set_timers _ h0) in *.
  set (h2 := subscribe_events e evl h1) in *.
  set (h3 := (if fl then _ else _) h2) in *.
  set (h4 := (if ml then _ else _) h3) in *.
  assert (R4 : timers h4 = timers h1 /\ trace h4 = trace h1).
  { subst h4 h3 h2. destruct ml, fl;
      repeat match goal with
             | |- context [timers (addEventListener ?t ?ty ?f ?x)] =>
                 rewrite (proj1 (addEventListener_rest t ty f x))
             | |- context [trace (addEventListener ?t ?ty ?f ?x)] =>
                 rewrite (proj1 (proj2 (proj2 (addEventListener_rest t ty f x))))
             end;
      rewrite (proj1 (subscribe_events_rest _ _ _)),
              (proj1 (proj2 (proj2 (subscribe_events_rest _ _ _)))); auto. }
  destruct R4 as [T4 Tr4].
  split; [|split; [|split; [|split; [|split; [|split]]]]].
  - intros sub. split; [apply (inv_listeners _ HI)|].
    cbn [host listeners set_observing]. intros Hrel.
    assert (In2 : forall k, In k evl -> In (mkSub (TElement (el_ref e)) (event_name k) HListener)
                                            (listeners h2)).
    { intros k Hk. apply subscribe_events_listeners. right. eauto. }
    assert (In3 : forall x, In x (listeners h2) -> In x (listeners h3)).
    { intros x Hx. subst h3. destruct fl; [|exact Hx].
      apply addEventListener_listeners. now left. }
    assert (In4 : forall x, In x (listeners h3) -> In x (listeners h4)).
    { intros x Hx. subst h4. destruct ml; [|exact Hx].
      apply addEventListener_listeners. now left. }
    apply released_inv in Hrel as [(e' & k & He' & Hk & ->)|[[Hf ->]|(e' & He' & Hm & ->)]];
      cbn [element eventList notifyOnFocusLoss notifyOnMouseLeave] in *.
    + injection He' as <-. auto.
    + apply In4. subst h3. fold fl in Hf. rewrite Hf. apply addEventListener_listeners. now right.
    + injection He' as <-. subst h4. fold ml in Hm. rewrite Hm.
      apply addEventListener_listeners. now right.
  - exact (inv_listeners_nodup _ HI).
  - exact (proj1 (release_clears _ HI)).
  - cbn. now rewrite Hpar.
  - reflexivity.
  - cbn [trace set_observing]. rewrite Tr4. reflexivity.
  - cbn [timers set_observing timeoutHandle]. rewrite T4. subst h1. cbn. now rewrite Hp.
Qed.

Lemma construction_subscribes_what_release_removes_witness :
  listeners (host (exec release Examples.box_manager_focus)) = [] /\
  observing (host Examples.box_manager_focus) = Some 0%nat /\
  tq_pending (timers (host Examples.box_manager_focus)) = [mkTimer 1 0 ThNoop].
Proof.
  destruct (construction_subscribes_what_release_removes
              (mkParams None (Some Examples.box) None None (Some true) None None)
              (fresh_host Examples.doc)
              (host Examples.box_manager_focus) (this Examples.box_manager_focus)
              (pristine_fresh Examples.doc) eq_refl)
    as (_ & _ & H1 & H2 & _ & _ & H3).
  split; [exact H1|]. split; [exact H2 | exact H3].
Defined.

(** X18: [requestNonInteractiveCallback] fails as the constructor fails,
    leaving the same host; when it succeeds the manager it returns is the
    constructed one with [f] as its one callback, and an immediate [call]
    invokes [f] once. *)
Theorem requestNonInteractiveCallback_registers p f h0 :
  pristine h0 ->
  match constructor p h0 with
  | (h, inl err) => requestNonInteractiveCallback p f h0 = (h, inl err)
  | (h, inr m) =>
      requestNonInteractiveCallback p f h0 = (h, inr (set_registeredCallbacks [f] m)) /\
      reachable (mkState (set_registeredCallbacks [f] m) h) /\
      forall evt,
        trace (host (exec (call evt) (mkState (set_registeredCallbacks [f] m) h)))
        = trace h0 ++ [(f, evt)]
  end.
Proof.
  intros Hpr. unfold requestNonInteractiveCallback.
  destruct (constructor p h0) as [h [err|m]] eqn:Hc; [reflexivity|].
  destruct (construction_built_empty p h0 h m Hc) as (Hcb & Htr & _).
  assert (E : exec (register f) (mkState m h) = mkState (set_registeredCallbacks [f] m) h).
  { unfold exec. rewrite register_spec. cbn [snd this]. rewrite Hcb. reflexivity. }
  rewrite E. cbn [host this]. split; [reflexivity|]. split.
  - rewrite <- E. apply (reach_step (Register f)). eapply reach_new; eassumption.
  - intros evt. unfold exec. rewrite call_spec. cbn. now rewrite Htr.
Qed.

Lemma requestNonInteractiveCallback_registers_witness :
  requestNonInteractiveCallback (Examples.defaults None (Some Examples.box)) 3%nat
                                (fresh_host Examples.doc)
  = (host Examples.box_manager,
     inr (set_registeredCallbacks [3%nat] (this Examples.box_manager))).
Proof.
  exact (proj1 (requestNonInteractiveCallback_registers
                  (Examples.defaults None (Some Examples.box)) 3%nat
                  (fresh_host Examples.doc) (pristine_fresh Examples.doc))).
Defined.

Lemma make_selector_hash sel el :
  truthy (make_selector sel el) = true -> make_selector sel el = hash_id el.
Proof. unfold make_selector. destruct (_ || _); [reflexivity | discriminate]. Qed.

(** X19: right after a construction, [checkMatching] leaves the state as
    it is.  For a manager made from a selector alone it returns true.  For
    one made from an element handle it queries [#] and the handle's id:
    when the host's parser refuses that string, as it does the lone [#] of
    a handle without id, it throws the [SyntaxError]; otherwise it returns
    whether the document's match is that element. *)
Theorem checkMatching_after_construction parses p h0 h m :
  constructor p h0 = (h, inr m) ->
  parses (hash_id None) = true ->
  checkMatching parses (mkState m h) =
  (match p_element p with
   | None => inr true
   | Some e =>
       if parses (hash_id (Some e))
       then inr (match querySelector (document h0) (hash_id (Some e)) with
                 | Some e' => Nat.eqb (el_ref e') (el_ref e)
                 | None => false
                 end)
       else inl (SyntaxError ("Failed to execute 'querySelector' on 'Document': '"
                              ++ hash_id (Some e) ++ "' is not a valid selector.")%string)
   end, mkState m h).
Proof.
  intros Hc Hu. destruct (construction_built_empty p h0 h m Hc) as (_ & _ & Hd).
  apply constructor_success in Hc as (e & parent & Hr & _ & Ht & Hm & _).
  unfold checkMatching, querySelector_or_throw. cbn [this host]. rewrite Hd, Hm.
  cbn [element selector]. rewrite (make_selector_hash _ _ Ht) in *. f_equal.
  destruct (p_element p) as [e0|]; unfold resolve_element in Hr.
  - injection Hr as <-. destruct (parses (hash_id (Some e0))); [|reflexivity].
    now destruct (querySelector (document h0) (hash_id (Some e0))).
  - rewrite Hu.
    destruct (querySelector (document h0) (hash_id None)) as [e'|];
      unfold assertExists in Hr; [|discriminate].
    injection Hr as <-. now rewrite Nat.eqb_refl.
Qed.

Lemma checkMatching_after_construction_witness :
  checkMatching refuses_lone_hash Examples.box_manager = (inr false, Examples.box_manager) /\
  fst (checkMatching refuses_lone_hash
         (Examples.started (Examples.defaults (Some ".foo"%string) (Some Examples.foo))))
  = inl (SyntaxError
           "Failed to execute 'querySelector' on 'Document': '#' is not a valid selector.").
Proof.
  split.
  - exact (checkMatching_after_construction refuses_lone_hash
             (Examples.defaults None (Some Examples.box)) (fresh_host Examples.doc)
             (host Examples.box_manager) (this Examples.box_manager) eq_refl eq_refl).
  - exact (f_equal fst
             (checkMatching_after_construction refuses_lone_hash
                (Examples.defaults (Some ".foo"%string) (Some Examples.foo))
                (fresh_host Examples.doc)
                (host (Examples.started (Examples.defaults (Some ".foo"%string)
                                                           (Some Examples.foo))))
                (this (Examples.started (Examples.defaults (Some ".foo"%string)
                                                           (Some Examples.foo))))
                eq_refl eq_refl)).
Defined.

End FlowFacts.
